(** * tcx2csv: a shallow embedding of [tcx2csv.py] and its checked properties

    The program reads a TCX document, checks the path
    TrainingCenterDatabase / Activities / Activity, and writes one CSV line
    per Trackpoint, with marker lines for laps and tracks.

    Python values are modelled as follows.
    - [str] is [string]; characters are the code points below 256.
    - [None]-or-value is [option].
    - the insertion-ordered [dict] [attributes] is an association list.
    - [xml.etree.ElementTree.Element] is the tree [Element] (tag in Clark
      notation, text, children); [find] and [iter] follow ElementTree for
      the one-step paths the program builds (a namespace prefix followed by
      an element name).
    - [main] runs in a small state-and-exception monad over the console,
      the output file and the faults of the file system. *)

From Stdlib Require Import String Ascii List Bool Arith Lia.
Import ListNotations.
Open Scope list_scope.
Open Scope string_scope.

#[local] Set Warnings "-register-all".

(** ** Python strings *)

Module Str.

Definition newline : ascii := "010"%char.
Definition nl : string := String newline "".

(** [s[n:]] for [0 <= n]. *)
Fixpoint drop (n : nat) (s : string) : string :=
  match n, s with
  | O, _ => s
  | S _, "" => ""
  | S n', String _ s' => drop n' s'
  end.

(** [s[:n]] for [0 <= n]. *)
Fixpoint take (n : nat) (s : string) : string :=
  match n, s with
  | O, _ => ""
  | S _, "" => ""
  | S n', String c s' => String c (take n' s')
  end.

(** [s[-n:]] for [0 < n]: the last [n] characters, the whole string when
    it is shorter. *)
Definition last_chars (n : nat) (s : string) : string :=
  drop (String.length s - n) s.

(** [str.isspace] on one character (code points below 256). *)
Definition isspace (c : ascii) : bool :=
  let n := nat_of_ascii c in
  (((9 <=? n) && (n <=? 13)) || ((28 <=? n) && (n <=? 32))
   || (n =? 133) || (n =? 160))%nat.

Fixpoint lstrip (s : string) : string :=
  match s with
  | "" => ""
  | String c s' => if isspace c then lstrip s' else s
  end.

Fixpoint rstrip (s : string) : string :=
  match s with
  | "" => ""
  | String c s' =>
      match rstrip s' with
      | "" => if isspace c then "" else String c ""
      | r => String c r
      end
  end.

(** [s.strip()] *)
Definition strip (s : string) : string := rstrip (lstrip s).

(** [c in s] for a character [c]. *)
Fixpoint contains (c : ascii) (s : string) : bool :=
  match s with
  | "" => false
  | String d s' => Ascii.eqb d c || contains c s'
  end.

(** [s.count(c)] for a character [c]. *)
Fixpoint count (c : ascii) (s : string) : nat :=
  match s with
  | "" => 0
  | String d s' => (if Ascii.eqb d c then 1 else 0) + count c s'
  end.

(** [sep.join(l)] *)
Definition join (sep : string) (l : list string) : string :=
  String.concat sep l.

End Str.

(** ** The regular expression [^({.*})]

    [dot_star_rbrace s] matches [.*}] at the start of [s], greedily: [.]
    takes any character but a line feed, and the match backs off to the
    last closing brace it can reach.  The result is the text matched. *)

Fixpoint dot_star_rbrace (s : string) : option string :=
  match s with
  | "" => None
  | String c s' =>
      match (if Ascii.eqb c Str.newline then None else dot_star_rbrace s') with
      | Some m => Some (String c m)
      | None => if Ascii.eqb c "}" then Some (String c "") else None
      end
  end.

(** [re.match(r'^({.*})', s)], as the text of group 1. *)
Definition re_match_namespace (s : string) : option string :=
  match s with
  | String c s' =>
      if Ascii.eqb c "{" then option_map (String c) (dot_star_rbrace s')
      else None
  | "" => None
  end.

(** ** ElementTree *)

Inductive Element : Type :=
| mkElement (tag : string) (text : option string) (children : list Element).

Definition tag (e : Element) : string :=
  match e with mkElement t _ _ => t end.
Definition text (e : Element) : option string :=
  match e with mkElement _ x _ => x end.
Definition children (e : Element) : list Element :=
  match e with mkElement _ _ cs => cs end.

(** [len(element)] *)
Definition len (e : Element) : nat := List.length (children e).

(** The tag test of a one-step path (ElementPath's [prepare_child]):
    [{*}name] accepts [name] in any namespace or none, by comparing the
    tail of the tag with [}name]; [{}name] accepts the tag [name]; any
    other path is compared with the tag as it is.  Paths with further
    XPath syntax (steps, predicates, a name that is [*]) are not covered:
    the program builds none. *)
Definition tag_matches (path el_tag : string) : bool :=
  if Str.take 3 path =? "{*}" then
    let suffix := Str.drop 2 path in
    (el_tag =? Str.drop 3 path)
    || (Str.last_chars (String.length suffix) el_tag =? suffix)
  else if Str.take 2 path =? "{}" then el_tag =? Str.drop 2 path
  else el_tag =? path.

(** [element.find(path)]: the first child that passes the tag test. *)
Definition find (e : Element) (path : string) : option Element :=
  List.find (fun c => tag_matches path (tag c)) (children e).

(** [element.iter(tag)]: the element and its descendants in document
    order, those whose tag equals [t]; ["*"] selects all of them. *)
Fixpoint iter (t : string) (e : Element) : list Element :=
  match e with
  | mkElement et _ cs =>
      ((if (t =? "*") || (et =? t) then [e] else [])
       ++ flat_map (iter t) cs)%list
  end.

(** ** The field map *)

Inductive AttrValue : Type :=
| Leaf (column : string)
| Nested (level : list (string * AttrValue)).

Definition AttributeNestingLevel : Type := list (string * AttrValue).

Definition attributes : AttributeNestingLevel :=
  [ ("Time", Leaf "Time");
    ("Position", Nested
       [ ("LatitudeDegrees", Leaf "LatitudeDegrees");
         ("LongitudeDegrees", Leaf "LongitudeDegrees") ]);
    ("AltitudeMeters", Leaf "AltitudeMeters");
    ("HeartRateBpm", Nested [ ("Value", Leaf "HRBpm") ]);
    ("Cadence", Leaf "Cadence");
    ("Extensions", Nested
       [ ("TPX", Nested
            [ ("Speed", Leaf "Speed");
              ("Watts", Leaf "Watts");
              ("Grade", Leaf "Grade") ]) ]) ].

(** [extract_headers] appends to the list [headers] of [main]; the list is
    passed through.  [extract_headers_value] is the body of the loop for
    one value. *)
Fixpoint extract_headers_value (value : AttrValue) (headers : list string)
  : list string :=
  match value with
  | Nested d =>
      fold_left (fun hs kv => extract_headers_value (snd kv) hs) d headers
  | Leaf v => (headers ++ [v])%list
  end.

Definition extract_headers (attr_dict : AttributeNestingLevel)
    (headers : list string) : list string :=
  fold_left (fun hs kv => extract_headers_value (snd kv) hs) attr_dict headers.

(** ** Extraction of one trackpoint *)

(** [get_element_text(element, tag)] *)
Definition get_element_text (element : option Element) (tag : string)
  : string :=
  match element with
  | None => ""
  | Some e =>
      match find e tag with
      | Some child =>
          match text child with
          | Some t => if t =? "" then "" else Str.strip t
          | None => ""
          end
      | None => ""
      end
  end.

(** The namespace token of [extract_trackpoint_data]. *)
Definition namespace_any : string := "{*}".

(** The body of the loop of [extract_attribute] for one key and value. *)
Fixpoint extract_attribute_item (element : option Element) (key : string)
    (value : AttrValue) : list string :=
  match value with
  | Nested d =>
      let child :=
        match element with
        | Some e => find e (namespace_any ++ key)
        | None => None
        end in
      flat_map (fun kv => extract_attribute_item child (fst kv) (snd kv)) d
  | Leaf _ => [get_element_text element (namespace_any ++ key)]
  end.

Definition extract_attribute (element : option Element)
    (attr_dict : AttributeNestingLevel) : list string :=
  flat_map (fun kv => extract_attribute_item element (fst kv) (snd kv))
    attr_dict.

Definition extract_trackpoint_data (trackpoint : option Element)
    (attrs : option AttributeNestingLevel) : list string :=
  let attrs := match attrs with Some a => a | None => attributes end in
  extract_attribute trackpoint attrs.

(** ** The run: console, output file, faults *)

(** An instance of a subclass of [Exception]; [exc_message] is [str(e)]. *)
Record Exception : Type := mkException { exc_message : string }.

(** What the run meets outside the program: the outcome of
    [et.parse(input_file).getroot()], of [open(output_file, 'w')], of the
    [k]-th call of [fout.write] and of the flush that closes the file on
    leaving the [with] block ([None]: no exception); and, for a block left
    by an exception, how many of the characters handed to [fout.write] had
    reached the file ([flushed]; the buffering decides). *)
Record Env : Type := mkEnv {
  parse_result : Element + Exception;
  open_result : option Exception;
  write_result : nat -> option Exception;
  close_result : option Exception;
  flushed : nat
}.

(** [stdout]: the lines printed.  [out_file]: the content at the output
    path, [None] when no file is there.  [written]: the strings of the
    calls of [fout.write] that returned, in order.  [buffered]: the text
    handed to [fout.write] since the file was opened, the string of a call
    that raised included; it is in the buffer of the file object or in the
    file. *)
Record World : Type := mkWorld {
  stdout : list string;
  out_file : option string;
  written : list string;
  buffered : string
}.

Inductive Result (A : Type) : Type :=
| Ok (a : A)
| Raise (e : Exception).
Arguments Ok {A} a.
Arguments Raise {A} e.

Definition M (A : Type) : Type := World -> Result A * World.

Definition ret {A} (a : A) : M A := fun w => (Ok a, w).

Definition bind {A B} (m : M A) (k : A -> M B) : M B :=
  fun w =>
    match m w with
    | (Ok a, w') => k a w'
    | (Raise e, w') => (Raise e, w')
    end.

Definition raise {A} (e : Exception) : M A := fun w => (Raise e, w).

(** [try: body except Exception as e: handler(e)] *)
Definition try_except {A} (body : M A) (handler : Exception -> M A) : M A :=
  fun w =>
    match body w with
    | (Ok a, w') => (Ok a, w')
    | (Raise e, w') => handler e w'
    end.

Declare Scope run_scope.
Delimit Scope run_scope with run.
Notation "x <- m ;; k" := (bind m (fun x => k))
  (at level 100, m at next level, right associativity) : run_scope.
Notation "m ;; k" := (bind m (fun _ => k))
  (at level 100, right associativity) : run_scope.
Open Scope run_scope.

(** [for x in l: body(x)] *)
Fixpoint for_each {A} (l : list A) (body : A -> M unit) : M unit :=
  match l with
  | [] => ret tt
  | x :: l' => body x ;; for_each l' body
  end.

(** The world after [s] is printed. *)
Definition printed (s : string) (w : World) : World :=
  mkWorld (stdout w ++ [s])%list (out_file w) (written w) (buffered w).

(** [print(s)] *)
Definition print (s : string) : M unit := fun w => (Ok tt, printed s w).

(** [et.parse(input_file).getroot()] *)
Definition et_parse (env : Env) : M Element :=
  match parse_result env with
  | inl root => ret root
  | inr e => raise e
  end.

(** [fout.write(s)]: the text goes to the buffer of the file object; the
    call may raise (the text cannot be encoded, or a flush that the call
    sets off fails).  What is in the file itself is settled when the file
    is closed. *)
Definition fout_write (env : Env) (s : string) : M unit :=
  fun w =>
    match write_result env (List.length (written w)) with
    | Some e =>
        (Raise e,
         mkWorld (stdout w) (out_file w) (written w) (buffered w ++ s))
    | None =>
        (Ok tt,
         mkWorld (stdout w) (out_file w) (written w ++ [s])%list
           (buffered w ++ s))
    end.

(** The world when the file is closed with [content] in it. *)
Definition closed (content : string) (w : World) : World :=
  mkWorld (stdout w) (Some content) (written w) (buffered w).

(** [with open(output_file, 'w') as fout: body].  The file is created or
    emptied.  On leaving the block the file is closed, which flushes the
    buffer: when the body and the flush go through, the file holds all the
    text written; when the flush raises, that exception leaves the block,
    in the place of the one of the body if the body raised; when an
    exception leaves the block, the file holds a part of the text handed
    over, from its start. *)
Definition with_open (env : Env) (body : M unit) : M unit :=
  fun w =>
    match open_result env with
    | Some e => (Raise e, w)
    | None =>
        match body (mkWorld (stdout w) (Some "") [] "") with
        | (Ok _, w') =>
            match close_result env with
            | None => (Ok tt, closed (buffered w') w')
            | Some e =>
                (Raise e, closed (Str.take (flushed env) (buffered w')) w')
            end
        | (Raise e, w') =>
            (Raise (match close_result env with
                    | Some e' => e'
                    | None => e
                    end),
             closed (Str.take (flushed env) (buffered w')) w')
        end
    end.

(** [activities is None or len(activities) == 0] *)
Definition none_or_empty (e : option Element) : bool :=
  match e with
  | None => true
  | Some x => (len x =? 0)%nat
  end.

(** The lines of the [with] block of [main]. *)
Definition write_rows (env : Env) (namespace : string) (headers : list string)
    (activity : Element) : M unit :=
  fout_write env (Str.join "," headers ++ Str.nl) ;;
  for_each (iter (namespace ++ "Lap") activity) (fun lap =>
    fout_write env ("New Lap" ++ Str.nl) ;;
    for_each (iter (namespace ++ "Track") lap) (fun track =>
      fout_write env ("New Track" ++ Str.nl) ;;
      for_each (iter (namespace ++ "Trackpoint") track) (fun trackpoint =>
        let data := extract_trackpoint_data (Some trackpoint) None in
        fout_write env (Str.join "," data ++ Str.nl)))).

(** The namespace prefix [main] reads off the root tag. *)
Definition root_namespace (root_tag : string) : string :=
  match re_match_namespace root_tag with
  | Some g => g
  | None => ""
  end.

(** The [try] block of [main]. *)
Definition main_body (env : Env) : M unit :=
  root <- et_parse env ;;
  let namespace := root_namespace (tag root) in
  if negb (tag root =? namespace ++ "TrainingCenterDatabase") then
    print ("Unknown root found: " ++ tag root)
  else
    let activities := find root (namespace ++ "Activities") in
    match activities with
    | Some acts =>
      if (len acts =? 0)%nat then
        print "Unable to find Activities under root"
      else
        let activity := find acts (namespace ++ "Activity") in
        match activity with
        | Some act =>
          if (len act =? 0)%nat then
            print "Unable to find Activity under Activities"
          else
            let headers := extract_headers attributes [] in
            with_open env (write_rows env namespace headers act)
        | None => print "Unable to find Activity under Activities"
        end
    | None => print "Unable to find Activities under root"
    end.

Definition main (env : Env) : M unit :=
  try_except (main_body env)
    (fun e => print ("Error processing file: " ++ exc_message e)).

(** The world before a run: nothing printed, [pre] at the output path. *)
Definition initial_world (pre : option string) : World :=
  mkWorld [] pre [] "".

(** ** Notions the properties are stated with *)

(** Clark notation: the tag of the element [local] in the namespace [ns]
    ([None]: no namespace). *)
Definition ns_prefix (ns : option string) : string :=
  match ns with
  | Some uri => "{" ++ uri ++ "}"
  | None => ""
  end.

Definition qname (ns : option string) (local : string) : string :=
  ns_prefix ns ++ local.

(** The text after the last closing brace; the whole text when it has
    none. *)
Fixpoint after_last_rbrace (s : string) : string :=
  match s with
  | "" => ""
  | String c s' =>
      if Str.contains "}" s' then after_last_rbrace s'
      else if Ascii.eqb c "}" then s' else s
  end.

(** The local name of a tag in Clark notation. *)
Definition local_name (t : string) : string :=
  match t with
  | String c _ => if Ascii.eqb c "{" then after_last_rbrace t else t
  | "" => t
  end.

(** A name without a closing brace, as every XML name is. *)
Definition plain_name (s : string) : bool := negb (Str.contains "}" s).

(** A namespace name is a URI reference: it is not empty and has no
    closing brace and no line feed in it (all that is needed of it here). *)
Definition namespace_name (uri : string) : bool :=
  negb (uri =? "") && negb (Str.contains "}" uri)
  && negb (Str.contains Str.newline uri).

Definition namespace_ok (ns : option string) : bool :=
  match ns with
  | Some uri => namespace_name uri
  | None => true
  end.

(** Every tag of the tree is a plain name. *)
Fixpoint plain_names (e : Element) : bool :=
  match e with
  | mkElement t _ cs => plain_name t && forallb plain_names cs
  end.

Definition plain_opt (el : option Element) : bool :=
  match el with
  | Some e => plain_names e
  | None => true
  end.

(** The tree [e], whose tags are local names, with every element put in
    the namespace [ns]. *)
Fixpoint in_namespace (ns : option string) (e : Element) : Element :=
  match e with
  | mkElement t x cs => mkElement (qname ns t) x (map (in_namespace ns) cs)
  end.

(** The element and all its descendants, in document order. *)
Fixpoint subtree (e : Element) : list Element :=
  match e with
  | mkElement _ _ cs => e :: flat_map subtree cs
  end.

(** Every key of the field map is a plain name. *)
Fixpoint plain_keys_value (v : AttrValue) : bool :=
  match v with
  | Leaf _ => true
  | Nested d => forallb (fun kv => plain_name (fst kv) && plain_keys_value (snd kv)) d
  end.

Definition plain_keys (m : AttributeNestingLevel) : bool :=
  forallb (fun kv => plain_name (fst kv) && plain_keys_value (snd kv)) m.

(** The number of leaves of the field map. *)
Fixpoint leaves_value (v : AttrValue) : nat :=
  match v with
  | Leaf _ => 1
  | Nested d => list_sum (map (fun kv => leaves_value (snd kv)) d)
  end.

Definition leaves (m : AttributeNestingLevel) : nat :=
  list_sum (map (fun kv => leaves_value (snd kv)) m).

(** The text of the header row and of the row of a trackpoint; a line is
    the text and a line feed. *)
Definition header_text : string :=
  Str.join "," (extract_headers attributes []).

Definition row_text (trackpoint : Element) : string :=
  Str.join "," (extract_trackpoint_data (Some trackpoint) None).

Definition line (s : string) : string := s ++ Str.nl.

(** [len(s.split(','))] *)
Definition field_count (s : string) : nat := S (Str.count "," s).

(** [s.count('\n')]: the number of lines of a text whose lines all end in
    a line feed. *)
Definition line_count (s : string) : nat := Str.count Str.newline s.

(** The strings the three loops of [main] pass to [fout.write], in order. *)
Definition trackpoint_lines (namespace : string) (track : Element)
  : list string :=
  map (fun trackpoint => line (row_text trackpoint))
    (iter (namespace ++ "Trackpoint") track).

Definition track_lines (namespace : string) (lap : Element) : list string :=
  flat_map (fun track => line "New Track" :: trackpoint_lines namespace track)
    (iter (namespace ++ "Track") lap).

Definition lap_lines (namespace : string) (activity : Element)
  : list string :=
  flat_map (fun lap => line "New Lap" :: track_lines namespace lap)
    (iter (namespace ++ "Lap") activity).

Definition all_lines (namespace : string) (activity : Element)
  : list string :=
  line header_text :: lap_lines namespace activity.

(** [fout.write] of each string of a list in turn. *)
Definition write_all (env : Env) (ls : list string) : M unit :=
  for_each ls (fout_write env).

(** The Activity element [main] reaches the write phase with: [None] when
    one of the three checks of the document ends the run. *)
Definition find_activity (root : Element) : option Element :=
  let namespace := root_namespace (tag root) in
  if negb (tag root =? namespace ++ "TrainingCenterDatabase") then None
  else
    match find root (namespace ++ "Activities") with
    | Some acts =>
        if (len acts =? 0)%nat then None
        else
          match find acts (namespace ++ "Activity") with
          | Some act => if (len act =? 0)%nat then None else Some act
          | None => None
          end
    | None => None
    end.

(** The three ways a document fails the checks of [main]. *)
Definition unknown_root (root : Element) : Prop :=
  tag root <> root_namespace (tag root) ++ "TrainingCenterDatabase".

Definition activities_missing (root : Element) : Prop :=
  tag root = root_namespace (tag root) ++ "TrainingCenterDatabase" /\
  none_or_empty (find root (root_namespace (tag root) ++ "Activities")) = true.

Definition activity_missing (root : Element) : Prop :=
  tag root = root_namespace (tag root) ++ "TrainingCenterDatabase" /\
  exists acts,
    find root (root_namespace (tag root) ++ "Activities") = Some acts /\
    none_or_empty (Some acts) = false /\
    none_or_empty (find acts (root_namespace (tag root) ++ "Activity")) = true.

(** A run with no fault on the output side: the file opens, every write
    returns and the file closes. *)
Definition output_ok (env : Env) : Prop :=
  open_result env = None /\ (forall k, write_result env k = None) /\
  close_result env = None.

(** The world a run ends in, and what it returns. *)
Definition final (env : Env) (w : World) : World := snd (main env w).
Definition outcome (env : Env) (w : World) : Result unit := fst (main env w).

(** The path-wise reading of extraction: a cell is found by following the
    interior keys from the trackpoint down and reading the leaf key there. *)
Definition step (el : option Element) (key : string) : option Element :=
  match el with
  | Some e => find e (namespace_any ++ key)
  | None => None
  end.

Fixpoint lookup_path (el : option Element) (path : list string)
  : option Element :=
  match path with
  | [] => el
  | key :: path' => lookup_path (step el key) path'
  end.

Definition cell (el : option Element) (pk : list string * string) : string :=
  get_element_text (lookup_path el (fst pk)) (namespace_any ++ snd pk).

(** The leaves of the field map in order, each with the interior keys
    above it and its own key. *)
Fixpoint leaf_paths_value (key : string) (v : AttrValue)
  : list (list string * string) :=
  match v with
  | Leaf _ => [([], key)]
  | Nested d =>
      map (fun pk => (key :: fst pk, snd pk))
        (flat_map (fun kv => leaf_paths_value (fst kv) (snd kv)) d)
  end.

Definition leaf_paths (m : AttributeNestingLevel)
  : list (list string * string) :=
  flat_map (fun kv => leaf_paths_value (fst kv) (snd kv)) m.

(** ** Sample documents *)

Module Sample.

Definition garmin : string :=
  "http://www.garmin.com/xmlschemas/TrainingCenterDatabase/v2".

Definition field (name value : string) : Element :=
  mkElement name (Some value) [].

Definition group (name : string) (cs : list Element) : Element :=
  mkElement name None cs.

(** Time, position and heart rate; no altitude, cadence or extensions. *)
Definition trackpoint : Element :=
  group "Trackpoint"
    [ field "Time" "2024-01-01T00:00:00Z";
      group "Position"
        [ field "LatitudeDegrees" "1.5"; field "LongitudeDegrees" "2.5" ];
      group "HeartRateBpm" [ field "Value" "150" ] ].

(** A time with a comma in it. *)
Definition trackpoint_comma : Element :=
  group "Trackpoint" [ field "Time" "2024-01-01,00:00:00Z" ].

(** A time with a line feed in it. *)
Definition trackpoint_feed : Element :=
  group "Trackpoint" [ field "Time" ("2024-01-01" ++ Str.nl ++ "00:00:00Z") ].

Definition lap (trackpoints : list Element) : Element :=
  group "Lap" [ group "Track" trackpoints ].

Definition document (laps : list Element) : Element :=
  group "TrainingCenterDatabase"
    [ group "Activities" [ group "Activity" laps ] ].

Definition two_laps : Element :=
  document [ lap [trackpoint; trackpoint]; lap [trackpoint; trackpoint] ].

Definition two_laps_feed : Element :=
  document [ lap [trackpoint_feed; trackpoint]; lap [trackpoint; trackpoint] ].

Definition one_comma : Element := document [ lap [trackpoint_comma] ].

(** Root, Activities and Activity in the Garmin namespace; the lap and
    all below it in no namespace. *)
Definition laps_elsewhere : Element :=
  mkElement (qname (Some garmin) "TrainingCenterDatabase") None
    [ mkElement (qname (Some garmin) "Activities") None
        [ mkElement (qname (Some garmin) "Activity") None
            [ lap [trackpoint; trackpoint] ] ] ].

(** A run without faults on the document [root]. *)
Definition env (root : Element) : Env :=
  mkEnv (inl root) None (fun _ => None) None 0.

End Sample.

(** ** Further notions *)

Definition first_char (s : string) : option ascii :=
  match s with
  | String c _ => Some c
  | "" => None
  end.

Fixpoint last_char (s : string) : option ascii :=
  match s with
  | "" => None
  | String c s' =>
      match s' with
      | "" => Some c
      | String _ _ => last_char s'
      end
  end.

(** No white space at either end. *)
Definition trimmed (s : string) : bool :=
  match first_char s with
  | Some c => negb (Str.isspace c)
  | None => true
  end
  && match last_char s with
     | Some c => negb (Str.isspace c)
     | None => true
     end.

(** Nothing but white space. *)
Fixpoint blank (s : string) : bool :=
  match s with
  | "" => true
  | String c s' => Str.isspace c && blank s'
  end.

(** The column names at the leaves of the field map, in order. *)
Fixpoint leaf_columns_value (v : AttrValue) : list string :=
  match v with
  | Leaf column => [column]
  | Nested d => flat_map (fun kv => leaf_columns_value (snd kv)) d
  end.

Definition leaf_columns (m : AttributeNestingLevel) : list string :=
  flat_map (fun kv => leaf_columns_value (snd kv)) m.

(** The field map with every column name changed by [f]; the keys stay. *)
Fixpoint rename_columns_value (f : string -> string) (v : AttrValue)
  : AttrValue :=
  match v with
  | Leaf column => Leaf (f column)
  | Nested d =>
      Nested (map (fun kv => (fst kv, rename_columns_value f (snd kv))) d)
  end.

Definition rename_columns (f : string -> string) (m : AttributeNestingLevel)
  : AttributeNestingLevel :=
  map (fun kv => (fst kv, rename_columns_value f (snd kv))) m.

(** The first of the [count] calls of [fout.write] from number [start] on
    that raises, if one does. *)
Fixpoint first_write_fault (wr : nat -> option Exception) (start count : nat)
  : option Exception :=
  match count with
  | O => None
  | S count' =>
      match wr start with
      | Some e => Some e
      | None => first_write_fault wr (S start) count'
      end
  end.

(** The exception that leaves the [with] block when [n] strings are to be
    written: the one of closing the file when that fails, else the one of
    the first write that fails. *)
Definition block_exception (env : Env) (n : nat) : option Exception :=
  match close_result env with
  | Some e => Some e
  | None => first_write_fault (write_result env) 0 n
  end.

(** The message of the check a document fails. *)
Definition check_message (root : Element) : string :=
  let namespace := root_namespace (tag root) in
  if negb (tag root =? namespace ++ "TrainingCenterDatabase") then
    "Unknown root found: " ++ tag root
  else if none_or_empty (find root (namespace ++ "Activities")) then
    "Unable to find Activities under root"
  else "Unable to find Activity under Activities".

Definition error_line (e : Exception) : string :=
  "Error processing file: " ++ exc_message e.

(** What a run prints, read off what it meets. *)
Definition reported (env : Env) : list string :=
  match parse_result env with
  | inr e => [error_line e]
  | inl root =>
      match find_activity root with
      | None => [check_message root]
      | Some act =>
          match open_result env with
          | Some e => [error_line e]
          | None =>
              match block_exception env
                      (List.length
                         (all_lines (root_namespace (tag root)) act)) with
              | Some e => [error_line e]
              | None => []
              end
          end
      end
  end.

(** A key that [find] takes as one name after [{*}]: not empty, not [*],
    and free of the characters that make an XPath step, predicate or
    attribute test and of white space. *)
Definition name_char (c : ascii) : bool :=
  negb (Str.isspace c)
  && negb (Str.contains c "/[]()@!=").

Fixpoint name_chars (s : string) : bool :=
  match s with
  | "" => true
  | String c s' => name_char c && name_chars s'
  end.

Definition simple_key (key : string) : bool :=
  negb (key =? "") && negb (key =? "*") && name_chars key.

Fixpoint simple_keys_value (v : AttrValue) : bool :=
  match v with
  | Leaf _ => true
  | Nested d =>
      forallb (fun kv => simple_key (fst kv) && simple_keys_value (snd kv)) d
  end.

Definition simple_keys (m : AttributeNestingLevel) : bool :=
  forallb (fun kv => simple_key (fst kv) && simple_keys_value (snd kv)) m.

(** The field map with every key changed by [g]; the column names stay. *)
Fixpoint rename_keys_value (g : string -> string) (v : AttrValue)
  : AttrValue :=
  match v with
  | Leaf column => Leaf column
  | Nested d =>
      Nested (map (fun kv => (g (fst kv), rename_keys_value g (snd kv))) d)
  end.

Definition rename_keys (g : string -> string) (m : AttributeNestingLevel)
  : AttributeNestingLevel :=
  map (fun kv => (g (fst kv), rename_keys_value g (snd kv))) m.

(** Documents for the edge cases. *)
Module Edge.

(** A root named TrainingCenterDatabase in a namespace whose name has a
    line feed in it. *)
Definition feed_root : Element :=
  in_namespace (Some ("urn:a" ++ Str.nl ++ "b")) Sample.two_laps.

(** Activities without children; Activities with an empty Activity. *)
Definition no_activity : Element :=
  Sample.group "TrainingCenterDatabase" [ Sample.group "Activities" [] ].

Definition empty_activity : Element :=
  Sample.group "TrainingCenterDatabase"
    [ Sample.group "Activities" [ Sample.group "Activity" [] ] ].

(** Two activities, the second with a lap of its own. *)
Definition two_activities (second : list Element) : Element :=
  Sample.group "TrainingCenterDatabase"
    [ Sample.group "Activities"
        [ Sample.group "Activity" [ Sample.lap [Sample.trackpoint] ];
          Sample.group "Activity" second ] ].

(** A lap inside a lap. *)
Definition nested_laps : Element :=
  Sample.document
    [ Sample.group "Lap"
        [ Sample.group "Lap"
            [ Sample.group "Track" [Sample.trackpoint] ] ] ].

(** An activity with a creator and no lap. *)
Definition no_laps : Element :=
  Sample.document [ Sample.field "Creator" "watch" ].

(** A trackpoint with two Time children and padded text. *)
Definition two_times : Element :=
  Sample.group "Trackpoint"
    [ Sample.field "Time" "  first  "; Sample.field "Time" "second" ].

(** The write number [k] fails with [e]; all others go through; closing
    the file does what [close] says, with [n] characters in the file. *)
Definition fault_at (root : Element) (k : nat) (e : Exception)
    (close : option Exception) (n : nat) : Env :=
  mkEnv (inl root) None (fun j => if (j =? k)%nat then Some e else None)
    close n.

(** Every write returns and the flush that closes the file fails, as on a
    full device, with nothing in the file. *)
Definition close_fault (root : Element) (e : Exception) : Env :=
  mkEnv (inl root) None (fun _ => None) (Some e) 0.

Definition no_space : Exception :=
  mkException "[Errno 28] No space left on device".

Definition cannot_encode : Exception :=
  mkException "'ascii' codec can't encode character".

(** Root, activity and outer lap in the Garmin namespace; inside the lap,
    a lap in no namespace with a track and a trackpoint in the Garmin
    namespace. *)
Definition lap_elsewhere_inside : Element :=
  mkElement (qname (Some Sample.garmin) "TrainingCenterDatabase") None
    [ mkElement (qname (Some Sample.garmin) "Activities") None
        [ mkElement (qname (Some Sample.garmin) "Activity") None
            [ mkElement (qname (Some Sample.garmin) "Lap") None
                [ mkElement "Lap" None
                    [ in_namespace (Some Sample.garmin)
                        (Sample.group "Track" [Sample.trackpoint]) ] ] ] ] ].

End Edge.

(** * Facts *)

(** ** Strings *)

Module StrFacts.

Lemma append_nil_r (s : string) : s ++ "" = s.
Proof. induction s as [|c s IH]; simpl; [reflexivity | now rewrite IH]. Qed.

Lemma append_assoc (a b c : string) : (a ++ b) ++ c = a ++ (b ++ c).
Proof. induction a as [|x a IH]; simpl; [reflexivity | now rewrite IH]. Qed.

Lemma length_append (a b : string) :
  String.length (a ++ b) = String.length a + String.length b.
Proof. induction a as [|x a IH]; simpl; [reflexivity | now rewrite IH]. Qed.

Lemma append_inv_l (p a b : string) : p ++ a = p ++ b -> a = b.
Proof.
  induction p as [|x p IH]; simpl; intros H; [assumption|].
  injection H as H. now apply IH.
Qed.

Lemma eqb_append_l (p a b : string) : (p ++ a =? p ++ b) = (a =? b).
Proof.
  destruct (String.eqb_spec a b) as [->|Hne].
  - apply String.eqb_refl.
  - apply String.eqb_neq. intros H. apply Hne. eapply append_inv_l, H.
Qed.

Lemma take_drop (n : nat) (s : string) : Str.take n s ++ Str.drop n s = s.
Proof.
  revert s. induction n as [|n IH]; intros [|c s]; simpl; try reflexivity.
  now rewrite IH.
Qed.

Lemma drop_append (p s : string) : Str.drop (String.length p) (p ++ s) = s.
Proof. induction p as [|c p IH]; simpl; [now destruct s | assumption]. Qed.

Lemma last_chars_append (p s : string) :
  Str.last_chars (String.length s) (p ++ s) = s.
Proof.
  unfold Str.last_chars. rewrite length_append.
  replace (String.length p + String.length s - String.length s)
    with (String.length p) by lia.
  apply drop_append.
Qed.

(** A text whose last characters are [s] ends with [s]. *)
Lemma last_chars_inv (n : nat) (t s : string) :
  Str.last_chars n t = s -> exists p, t = p ++ s.
Proof.
  unfold Str.last_chars. intros <-.
  eexists. symmetry. apply take_drop.
Qed.

Lemma contains_append (c : ascii) (a b : string) :
  Str.contains c (a ++ b) = Str.contains c a || Str.contains c b.
Proof.
  induction a as [|x a IH]; simpl; [reflexivity|].
  now rewrite IH, orb_assoc.
Qed.

Lemma count_append (c : ascii) (a b : string) :
  Str.count c (a ++ b) = Str.count c a + Str.count c b.
Proof.
  induction a as [|x a IH]; simpl; [reflexivity|]. rewrite IH. lia.
Qed.

Lemma count_none (c : ascii) (s : string) :
  Str.contains c s = false -> Str.count c s = 0.
Proof.
  induction s as [|x s IH]; simpl; [reflexivity|].
  intros H. apply orb_false_iff in H as [-> H]. now rewrite IH.
Qed.

(** Splitting at the last closing brace is unique. *)
Lemma rsplit_unique (x x' y y' : string) :
  Str.contains "}" y = false -> Str.contains "}" y' = false ->
  x ++ String "}" y = x' ++ String "}" y' -> y = y'.
Proof.
  intros Hy Hy'. revert x'.
  induction x as [|c x IH]; intros [|c' x']; simpl; intros H.
  - now injection H.
  - injection H as <- H. subst y.
    rewrite contains_append in Hy. simpl in Hy.
    now rewrite orb_true_r in Hy.
  - injection H as -> H. subst y'.
    rewrite contains_append in Hy'. simpl in Hy'.
    now rewrite orb_true_r in Hy'.
  - injection H as _ H. now apply IH in H.
Qed.

Lemma after_last_rbrace_plain (s : string) :
  Str.contains "}" s = false -> after_last_rbrace s = s.
Proof.
  destruct s as [|c s]; simpl; [reflexivity|].
  intros H. apply orb_false_iff in H as [-> ->]. reflexivity.
Qed.

Lemma after_last_rbrace_append (p y : string) :
  Str.contains "}" y = false -> after_last_rbrace (p ++ String "}" y) = y.
Proof.
  intros Hy. induction p as [|c p IH]; simpl.
  - now rewrite Hy.
  - rewrite contains_append. simpl. now rewrite orb_true_r.
Qed.

End StrFacts.

(** ** The namespace read off the root tag *)

Lemma dot_star_rbrace_none (s : string) :
  Str.contains "}" s = false -> dot_star_rbrace s = None.
Proof.
  induction s as [|c s IH]; simpl; [reflexivity|].
  intros H. apply orb_false_iff in H as [Hc Hs].
  rewrite (IH Hs), Hc. now destruct (Ascii.eqb c Str.newline).
Qed.

(** What [.*}] matches is a prefix of the text and ends in a closing
    brace. *)
Lemma dot_star_rbrace_some (s m : string) :
  dot_star_rbrace s = Some m ->
  exists q r, m = q ++ "}" /\ s = m ++ r.
Proof.
  revert m. induction s as [|c s IH]; simpl; intros m H; [discriminate|].
  destruct (if Ascii.eqb c Str.newline then None else dot_star_rbrace s)
    as [m'|] eqn:E.
  - injection H as <-.
    destruct (Ascii.eqb c Str.newline); [discriminate|].
    destruct (IH _ E) as (q & r & -> & ->).
    exists (String c q), r. split; reflexivity.
  - destruct (Ascii.eqb_spec c "}") as [->|]; [|discriminate].
    injection H as <-. exists "", s. split; reflexivity.
Qed.

Lemma dot_star_rbrace_uri (uri l : string) :
  Str.contains Str.newline uri = false -> Str.contains "}" l = false ->
  dot_star_rbrace (uri ++ String "}" l) = Some (uri ++ "}").
Proof.
  intros Hu Hl. induction uri as [|c uri IH]; simpl.
  - now rewrite (dot_star_rbrace_none l Hl).
  - simpl in Hu. apply orb_false_iff in Hu as [Hc Hu].
    rewrite Hc, (IH Hu). reflexivity.
Qed.

Lemma plain_name_contains (s : string) :
  plain_name s = true -> Str.contains "}" s = false.
Proof. unfold plain_name. now destruct (Str.contains "}" s). Qed.

Lemma namespace_name_inv (uri : string) :
  namespace_name uri = true ->
  uri <> "" /\ Str.contains "}" uri = false
  /\ Str.contains Str.newline uri = false.
Proof.
  unfold namespace_name. intros H.
  apply andb_true_iff in H as [H H3]. apply andb_true_iff in H as [H1 H2].
  repeat split.
  - intros ->. discriminate.
  - now destruct (Str.contains "}" uri).
  - now destruct (Str.contains Str.newline uri).
Qed.

Lemma qname_some (uri l : string) :
  qname (Some uri) l = String "{" (uri ++ String "}" l).
Proof.
  unfold qname, ns_prefix. simpl. now rewrite StrFacts.append_assoc.
Qed.

(** On the tag of an element in a namespace, [main] reads the prefix of
    that namespace. *)
Lemma root_namespace_qname (ns : option string) (l : string) :
  namespace_ok ns = true -> plain_name l = true ->
  root_namespace (qname ns l) = ns_prefix ns.
Proof.
  intros Hns Hl. apply plain_name_contains in Hl.
  unfold root_namespace. destruct ns as [uri|].
  - apply namespace_name_inv in Hns as (_ & _ & Hnl).
    rewrite qname_some. simpl.
    now rewrite (dot_star_rbrace_uri uri l Hnl Hl).
  - unfold qname. destruct l as [|c l]; simpl; [reflexivity|].
    simpl in Hl. apply orb_false_iff in Hl as [_ Hl].
    rewrite (dot_star_rbrace_none l Hl). now destruct (Ascii.eqb c "{").
Qed.

Lemma local_name_brace (q y : string) :
  Str.contains "}" y = false -> local_name (String "{" (q ++ String "}" y)) = y.
Proof.
  intros Hy. unfold local_name. change (Ascii.eqb "{" "{") with true.
  cbv iota. exact (StrFacts.after_last_rbrace_append (String "{" q) y Hy).
Qed.

(** A root tag that passes the first check of [main] has the local name
    TrainingCenterDatabase. *)
Lemma accepted_root_local_name (t : string) :
  t = root_namespace t ++ "TrainingCenterDatabase" ->
  local_name t = "TrainingCenterDatabase".
Proof.
  unfold root_namespace, re_match_namespace.
  destruct t as [|c s]; [discriminate|].
  destruct (Ascii.eqb_spec c "{") as [->|Hc].
  - destruct (dot_star_rbrace s) as [m|] eqn:E; simpl; [|discriminate].
    destruct (dot_star_rbrace_some _ _ E) as (q & r & -> & _).
    intros H. injection H as ->.
    rewrite StrFacts.append_assoc.
    now apply (local_name_brace q "TrainingCenterDatabase").
  - simpl. intros H. unfold local_name.
    apply Ascii.eqb_neq in Hc. rewrite Hc. exact H.
Qed.

(** ** Tag tests *)

(** The test of [{*}key], unfolded. *)
Lemma tag_matches_any_unfold (key t : string) :
  tag_matches (namespace_any ++ key) t
  = (t =? key) || (Str.last_chars (S (String.length key)) t =? String "}" key).
Proof.
  unfold tag_matches, namespace_any. reflexivity.
Qed.

Lemma eqb_false_contains (c : ascii) (a b : string) :
  Str.contains c a = true -> Str.contains c b = false -> (a =? b) = false.
Proof.
  intros Ha Hb. apply String.eqb_neq. intros ->. congruence.
Qed.

(** [{*}key] accepts an element by its local name alone, whatever its
    namespace. *)
Lemma tag_matches_any (ns : option string) (key l : string) :
  plain_name key = true -> plain_name l = true ->
  tag_matches (namespace_any ++ key) (qname ns l) = (l =? key).
Proof.
  intros Hk Hl. apply plain_name_contains in Hk, Hl.
  rewrite tag_matches_any_unfold.
  destruct (String.eqb_spec l key) as [->|Hne].
  - destruct ns as [uri|].
    + rewrite qname_some.
      change (String "{" (uri ++ String "}" key))
        with (String "{" uri ++ String "}" key).
      change (S (String.length key)) with (String.length (String "}" key)).
      rewrite StrFacts.last_chars_append, String.eqb_refl.
      apply orb_true_r.
    + unfold qname. simpl. now rewrite String.eqb_refl.
  - apply orb_false_iff. split.
    + destruct ns as [uri|].
      * apply eqb_false_contains with (c := "}"%char); [|assumption].
        rewrite qname_some. simpl. rewrite StrFacts.contains_append. simpl.
        now rewrite !orb_true_r.
      * unfold qname. simpl. now apply String.eqb_neq.
    + apply String.eqb_neq. intros H.
      apply StrFacts.last_chars_inv in H as [p H].
      destruct ns as [uri|].
      * rewrite qname_some in H.
        change (String "{" (uri ++ String "}" l))
          with (String "{" uri ++ String "}" l) in H.
        apply StrFacts.rsplit_unique in H; congruence.
      * unfold qname in H. simpl in H. subst l.
        rewrite StrFacts.contains_append in Hl. simpl in Hl.
        now rewrite orb_true_r in Hl.
Qed.

(** The path made of the prefix of a namespace and a name accepts the
    elements of that name in that namespace. *)
Lemma tag_matches_qname (ns : option string) (name l : string) :
  namespace_ok ns = true -> plain_name name = true -> plain_name l = true ->
  tag_matches (qname ns name) (qname ns l) = (l =? name).
Proof.
  intros Hns Hn Hl. destruct ns as [uri|].
  - apply namespace_name_inv in Hns as (Hne & Hbr & _).
    destruct uri as [|c uri]; [congruence|].
    destruct (String.eqb_spec (String c uri) "*") as [E|E].
    + rewrite E. apply (tag_matches_any (Some "*") name l Hn Hl).
    + unfold tag_matches. rewrite (qname_some (String c uri) name).
      assert (Hp : (Str.take 3 (String "{" (String c uri ++ String "}" name))
                    =? "{*}") = false).
      { simpl in Hbr. apply orb_false_iff in Hbr as [Hc Hbr].
        destruct uri as [|d uri]; simpl.
        - destruct (Ascii.eqb_spec c "*") as [->|]; [congruence|reflexivity].
        - simpl in Hbr. apply orb_false_iff in Hbr as [Hd _].
          rewrite Hd. now destruct (Ascii.eqb c "*"). }
      rewrite Hp.
      assert (Hq : (Str.take 2 (String "{" (String c uri ++ String "}" name))
                    =? "{}") = false).
      { simpl in Hbr. apply orb_false_iff in Hbr as [Hc _].
        simpl. now rewrite Hc. }
      rewrite Hq. rewrite <- qname_some. unfold qname.
      apply StrFacts.eqb_append_l.
  - unfold qname, ns_prefix.
    change ("" ++ name) with name. change ("" ++ l) with l.
    unfold tag_matches. apply plain_name_contains in Hn.
    assert (Hp : (Str.take 3 name =? "{*}") = false).
    { destruct name as [|a [|b [|c name]]]; simpl; try reflexivity.
      - now destruct (Ascii.eqb a "{").
      - destruct (Ascii.eqb a "{"); [|reflexivity].
        now destruct (Ascii.eqb b "*").
      - simpl in Hn. apply orb_false_iff in Hn as [_ Hn].
        apply orb_false_iff in Hn as [_ Hn].
        apply orb_false_iff in Hn as [Hc _]. rewrite Hc.
        destruct (Ascii.eqb a "{"); [|reflexivity].
        now destruct (Ascii.eqb b "*"). }
    rewrite Hp.
    assert (Hq : (Str.take 2 name =? "{}") = false).
    { destruct name as [|a [|b name]]; simpl; try reflexivity.
      - now destruct (Ascii.eqb a "{").
      - simpl in Hn. apply orb_false_iff in Hn as [_ Hn].
        apply orb_false_iff in Hn as [Hb _]. rewrite Hb.
        now destruct (Ascii.eqb a "{"). }
    now rewrite Hq.
Qed.

(** ** Trees and field maps *)

Lemma Element_induction (P : Element -> Prop) :
  (forall t x cs, Forall P cs -> P (mkElement t x cs)) ->
  forall e, P e.
Proof.
  intros H. fix IH 1. intros [t x cs]. apply H.
  induction cs as [|c cs IHcs]; constructor; [apply IH | exact IHcs].
Qed.

Lemma AttrValue_induction (P : AttrValue -> Prop) :
  (forall c, P (Leaf c)) ->
  (forall d, Forall (fun kv => P (snd kv)) d -> P (Nested d)) ->
  forall v, P v.
Proof.
  intros HL HN. fix IH 1. intros [c|d]; [apply HL|]. apply HN.
  induction d as [|kv d IHd]; constructor; [apply IH | exact IHd].
Qed.

Lemma find_map {A B} (f : B -> bool) (g : A -> B) (l : list A) :
  List.find f (map g l) = option_map g (List.find (fun x => f (g x)) l).
Proof.
  induction l as [|a l IH]; simpl; [reflexivity|].
  now destruct (f (g a)).
Qed.

Lemma find_ext_in {A} (f g : A -> bool) (l : list A) :
  (forall x, In x l -> f x = g x) -> List.find f l = List.find g l.
Proof.
  induction l as [|a l IH]; simpl; intros H; [reflexivity|].
  rewrite (H a (or_introl eq_refl)), IH; [reflexivity|].
  intros x Hx. apply H. now right.
Qed.

Section InNamespace.

Variable ns : option string.

Lemma tag_in_namespace (e : Element) :
  tag (in_namespace ns e) = qname ns (tag e).
Proof. now destruct e. Qed.

Lemma text_in_namespace (e : Element) :
  text (in_namespace ns e) = text e.
Proof. now destruct e. Qed.

Lemma children_in_namespace (e : Element) :
  children (in_namespace ns e) = map (in_namespace ns) (children e).
Proof. now destruct e. Qed.

Lemma len_in_namespace (e : Element) :
  len (in_namespace ns e) = len e.
Proof. unfold len. now rewrite children_in_namespace, length_map. Qed.

Lemma plain_names_tag (e : Element) :
  plain_names e = true -> plain_name (tag e) = true.
Proof. destruct e; simpl. intros H. now apply andb_true_iff in H. Qed.

Lemma plain_names_children (e c : Element) :
  plain_names e = true -> In c (children e) -> plain_names c = true.
Proof.
  destruct e as [t x cs]; simpl. intros H Hc.
  apply andb_true_iff in H as [_ H].
  rewrite forallb_forall in H. now apply H.
Qed.

Lemma find_In (e c : Element) (path : string) :
  find e path = Some c -> In c (children e).
Proof. unfold find. intros H. now apply find_some in H. Qed.

Lemma plain_names_find (e c : Element) (path : string) :
  plain_names e = true -> find e path = Some c -> plain_names c = true.
Proof. intros He Hf. eapply plain_names_children, find_In; eassumption. Qed.

(** Lookup by [{*}key] in a tree put in a namespace finds the child the
    lookup finds in the tree of local names. *)
Lemma find_any_in_namespace (e : Element) (key : string) :
  plain_name key = true -> plain_names e = true ->
  find (in_namespace ns e) (namespace_any ++ key)
  = option_map (in_namespace ns) (find e (namespace_any ++ key)).
Proof.
  intros Hk He. unfold find. rewrite children_in_namespace, find_map.
  f_equal. apply find_ext_in. intros c Hc.
  pose proof (plain_names_tag c (plain_names_children e c He Hc)) as Ht.
  rewrite tag_in_namespace, tag_matches_any by assumption.
  symmetry. exact (tag_matches_any None key (tag c) Hk Ht).
Qed.

(** Lookup by the name in the namespace of the tree. *)
Lemma find_qname_in_namespace (e : Element)
    (name : string) :
  namespace_ok ns = true -> plain_name name = true -> plain_names e = true ->
  find (in_namespace ns e) (qname ns name)
  = option_map (in_namespace ns) (find e name).
Proof.
  intros Hns Hn He. unfold find. rewrite children_in_namespace, find_map.
  f_equal. apply find_ext_in. intros c Hc.
  pose proof (plain_names_tag c (plain_names_children e c He Hc)) as Ht.
  rewrite tag_in_namespace, tag_matches_qname by assumption.
  symmetry. exact (tag_matches_qname None name (tag c) eq_refl Hn Ht).
Qed.

Lemma flat_map_map {A B C} (f : B -> list C) (g : A -> B) (l : list A) :
  flat_map f (map g l) = flat_map (fun x => f (g x)) l.
Proof. induction l as [|a l IH]; simpl; [reflexivity | now rewrite IH]. Qed.

Lemma flat_map_ext_in {A B} (f g : A -> list B) (l : list A) :
  (forall x, In x l -> f x = g x) -> flat_map f l = flat_map g l.
Proof.
  induction l as [|a l IH]; simpl; intros H; [reflexivity|].
  rewrite (H a (or_introl eq_refl)), IH; [reflexivity|].
  intros x Hx. apply H. now right.
Qed.

Lemma map_flat_map {A B C} (g : B -> C) (f : A -> list B) (l : list A) :
  map g (flat_map f l) = flat_map (fun x => map g (f x)) l.
Proof.
  induction l as [|a l IH]; simpl; [reflexivity|].
  now rewrite map_app, IH.
Qed.

(** [iter] by the name in the namespace of the tree. *)
Lemma iter_qname_in_namespace (name : string)
    (e : Element) :
  (name =? "*") = false -> plain_names e = true ->
  iter (qname ns name) (in_namespace ns e)
  = map (in_namespace ns) (iter name e).
Proof.
  intros Hstar. induction e as [t x cs IH] using Element_induction.
  intros He. simpl in He. apply andb_true_iff in He as [_ Hcs].
  rewrite forallb_forall in Hcs.
  change (in_namespace ns (mkElement t x cs))
    with (mkElement (qname ns t) x (map (in_namespace ns) cs)).
  cbn [iter]. rewrite Hstar.
  assert (Hq : (qname ns name =? "*") = false).
  { destruct ns as [uri|]; [now rewrite qname_some | exact Hstar]. }
  rewrite Hq. cbn [orb]. unfold qname at 1 2.
  rewrite StrFacts.eqb_append_l, map_app.
  f_equal.
  - now destruct (t =? name).
  - rewrite flat_map_map, map_flat_map. apply flat_map_ext_in.
    intros c Hc. rewrite Forall_forall in IH. apply IH; auto.
Qed.

End InNamespace.

(** ** Extraction *)

Lemma extract_attribute_app (el : option Element)
    (m1 m2 : AttributeNestingLevel) :
  extract_attribute el (m1 ++ m2)%list
  = (extract_attribute el m1 ++ extract_attribute el m2)%list.
Proof. apply flat_map_app. Qed.

Lemma extract_attribute_cons (el : option Element) (key : string)
    (v : AttrValue) (m : AttributeNestingLevel) :
  extract_attribute el ((key, v) :: m)
  = (extract_attribute_item el key v ++ extract_attribute el m)%list.
Proof. reflexivity. Qed.

Lemma extract_attribute_item_nested (el : option Element) (key : string)
    (d : AttributeNestingLevel) :
  extract_attribute_item el key (Nested d)
  = extract_attribute
      (match el with
       | Some e => find e (namespace_any ++ key)
       | None => None
       end) d.
Proof. reflexivity. Qed.

(** One cell for each leaf, whatever the element holds. *)
Lemma extract_attribute_item_length (v : AttrValue) :
  forall el key,
    List.length (extract_attribute_item el key v) = leaves_value v.
Proof.
  induction v as [c|d IH] using AttrValue_induction; intros el key.
  - reflexivity.
  - rewrite extract_attribute_item_nested. cbn [leaves_value].
    generalize (match el with
                | Some e => find e (namespace_any ++ key)
                | None => None
                end) as child.
    intros child. unfold extract_attribute.
    induction d as [|[k v] d IHd]; [reflexivity|].
    inversion IH as [|? ? Hv Hd]; subst. cbn [snd] in Hv.
    cbn [flat_map map fst snd].
    change (list_sum (?a :: ?l)) with (a + list_sum l).
    rewrite length_app, (Hv child k), (IHd Hd). reflexivity.
Qed.

Lemma extract_attribute_length (el : option Element)
    (m : AttributeNestingLevel) :
  List.length (extract_attribute el m) = leaves m.
Proof.
  unfold extract_attribute, leaves.
  induction m as [|[k v] m IH]; [reflexivity|].
  cbn [flat_map map fst snd].
  change (list_sum (?a :: ?l)) with (a + list_sum l).
  now rewrite length_app, extract_attribute_item_length, IH.
Qed.

(** Under an absent element every cell is empty. *)
Lemma extract_attribute_item_absent (v : AttrValue) :
  forall key,
    extract_attribute_item None key v = repeat "" (leaves_value v).
Proof.
  induction v as [c|d IH] using AttrValue_induction; intros key.
  - reflexivity.
  - rewrite extract_attribute_item_nested. cbn [leaves_value].
    unfold extract_attribute.
    induction d as [|[k v] d IHd]; [reflexivity|].
    inversion IH as [|? ? Hv Hd]; subst. cbn [snd] in Hv.
    cbn [flat_map map fst snd].
    change (list_sum (?a :: ?l)) with (a + list_sum l).
    rewrite (Hv k), (IHd Hd), repeat_app. reflexivity.
Qed.

Lemma extract_attribute_absent (m : AttributeNestingLevel) :
  extract_attribute None m = repeat "" (leaves m).
Proof.
  unfold extract_attribute, leaves.
  induction m as [|[k v] m IH]; [reflexivity|].
  cbn [flat_map map fst snd].
  change (list_sum (?a :: ?l)) with (a + list_sum l).
  now rewrite extract_attribute_item_absent, IH, repeat_app.
Qed.

(** The header has one column for each leaf. *)
Lemma extract_headers_value_length (v : AttrValue) :
  forall hs,
    List.length (extract_headers_value v hs)
    = List.length hs + leaves_value v.
Proof.
  induction v as [c|d IH] using AttrValue_induction; intros hs.
  - simpl. rewrite length_app. reflexivity.
  - cbn [extract_headers_value leaves_value]. revert hs.
    induction d as [|[k v] d IHd]; intros hs; [simpl; lia|].
    inversion IH as [|? ? Hv Hd]; subst. cbn [snd] in Hv.
    cbn [fold_left map fst snd].
    change (list_sum (?a :: ?l)) with (a + list_sum l).
    rewrite (IHd Hd), (Hv hs). lia.
Qed.

Lemma extract_headers_length (m : AttributeNestingLevel) (hs : list string) :
  List.length (extract_headers m hs) = List.length hs + leaves m.
Proof.
  unfold extract_headers, leaves. revert hs.
  induction m as [|[k v] m IH]; intros hs; [simpl; lia|].
  cbn [fold_left map fst snd].
  change (list_sum (?a :: ?l)) with (a + list_sum l).
  rewrite IH, extract_headers_value_length. lia.
Qed.

Section ExtractInNamespace.

Variable ns : option string.

Lemma get_element_text_in_namespace (e : Element)
    (key : string) :
  plain_name key = true -> plain_names e = true ->
  get_element_text (Some (in_namespace ns e)) (namespace_any ++ key)
  = get_element_text (Some e) (namespace_any ++ key).
Proof.
  intros Hk He. unfold get_element_text.
  rewrite find_any_in_namespace by assumption.
  destruct (find e (namespace_any ++ key)) as [c|]; simpl; [|reflexivity].
  now rewrite text_in_namespace.
Qed.

(** The cells do not depend on the namespace the elements are in. *)
Lemma extract_attribute_item_in_namespace (v : AttrValue) :
  forall el key,
    plain_name key = true -> plain_keys_value v = true ->
    plain_opt el = true ->
    extract_attribute_item (option_map (in_namespace ns) el) key v
    = extract_attribute_item el key v.
Proof.
  induction v as [c|d IH] using AttrValue_induction;
    intros el key Hk Hv Hel.
  - destruct el as [e|]; [|reflexivity]. cbn [option_map extract_attribute_item].
    now rewrite get_element_text_in_namespace.
  - rewrite !extract_attribute_item_nested.
    assert (Hchild :
      match option_map (in_namespace ns) el with
      | Some e => find e (namespace_any ++ key)
      | None => None
      end
      = option_map (in_namespace ns)
          (match el with
           | Some e => find e (namespace_any ++ key)
           | None => None
           end)).
    { destruct el as [e|]; [|reflexivity]. simpl option_map at 1.
      now apply find_any_in_namespace. }
    rewrite Hchild.
    assert (Hplain :
      plain_opt (match el with
                 | Some e => find e (namespace_any ++ key)
                 | None => None
                 end) = true).
    { destruct el as [e|]; [|reflexivity].
      destruct (find e (namespace_any ++ key)) as [c|] eqn:E; [|reflexivity].
      simpl. eapply plain_names_find; eassumption. }
    generalize dependent
      (match el with
       | Some e => find e (namespace_any ++ key)
       | None => None
       end).
    intros child _ Hchild. unfold extract_attribute.
    cbn [plain_keys_value] in Hv. rewrite forallb_forall in Hv.
    rewrite Forall_forall in IH.
    apply flat_map_ext_in. intros [k v] Hin.
    specialize (Hv _ Hin). apply andb_true_iff in Hv as [Hk' Hv']. simpl in *.
    apply (IH _ Hin); assumption.
Qed.

Lemma extract_attribute_in_namespace (e : Element)
    (m : AttributeNestingLevel) :
  plain_keys m = true -> plain_names e = true ->
  extract_attribute (Some (in_namespace ns e)) m
  = extract_attribute (Some e) m.
Proof.
  intros Hm He. unfold extract_attribute, plain_keys in *.
  rewrite forallb_forall in Hm.
  apply flat_map_ext_in. intros [k v] Hin.
  specialize (Hm _ Hin). apply andb_true_iff in Hm as [Hk Hv].
  exact (extract_attribute_item_in_namespace v (Some e) k Hk Hv He).
Qed.

Lemma row_text_in_namespace (e : Element) :
  plain_names e = true -> row_text (in_namespace ns e) = row_text e.
Proof.
  intros He. unfold row_text, extract_trackpoint_data.
  now rewrite extract_attribute_in_namespace.
Qed.

End ExtractInNamespace.

(** ** The write loops *)

Lemma write_all_cons (env : Env) (s : string) (ls : list string) (w : World) :
  write_all env (s :: ls) w
  = match fout_write env s w with
    | (Ok _, w') => write_all env ls w'
    | (Raise e, w') => (Raise e, w')
    end.
Proof. reflexivity. Qed.

Lemma write_all_app (env : Env) (a b : list string) (w : World) :
  write_all env (a ++ b)%list w
  = match write_all env a w with
    | (Ok _, w') => write_all env b w'
    | (Raise e, w') => (Raise e, w')
    end.
Proof.
  revert w. induction a as [|s a IH]; intros w; [reflexivity|].
  cbn [app]. rewrite !write_all_cons.
  destruct (fout_write env s w) as [[[]|e] w']; [apply IH | reflexivity].
Qed.

(** A loop that writes a line and then a list of lines for each item
    writes the lines of all items in turn. *)
Lemma for_each_write_all {A} (env : Env) (l : list A) (f : A -> string)
    (g : A -> list string) (body : A -> M unit) (w : World) :
  (forall x w, body x w = write_all env (f x :: g x) w) ->
  for_each l body w = write_all env (flat_map (fun x => f x :: g x) l) w.
Proof.
  intros Hbody. revert w. induction l as [|x l IH]; intros w; [reflexivity|].
  cbn [for_each flat_map]. unfold bind at 1.
  change (f x :: g x ++ flat_map (fun x => f x :: g x) l)%list
    with ((f x :: g x) ++ flat_map (fun x => f x :: g x) l)%list.
  rewrite write_all_app, Hbody.
  destruct (write_all env (f x :: g x) w) as [[[]|e] w'];
    [apply IH | reflexivity].
Qed.

Lemma for_each_map_write (env : Env) {A} (l : list A) (f : A -> string)
    (w : World) :
  for_each l (fun x => fout_write env (f x)) w = write_all env (map f l) w.
Proof.
  revert w. induction l as [|x l IH]; intros w; [reflexivity|].
  cbn [for_each map]. rewrite write_all_cons. unfold bind at 1.
  destruct (fout_write env (f x) w) as [[[]|e] w']; [apply IH | reflexivity].
Qed.

Lemma bind_write_all (env : Env) (s : string) (m : M unit)
    (ls : list string) (w : World) :
  (forall w, m w = write_all env ls w) ->
  (fout_write env s ;; m) w = write_all env (s :: ls) w.
Proof.
  intros Hm. rewrite write_all_cons. unfold bind.
  destruct (fout_write env s w) as [[[]|e] w']; [apply Hm | reflexivity].
Qed.

(** The [with] block of [main] writes [all_lines], one after the other. *)
Lemma write_rows_all_lines (env : Env) (namespace : string)
    (activity : Element) (w : World) :
  write_rows env namespace (extract_headers attributes []) activity w
  = write_all env (all_lines namespace activity) w.
Proof.
  unfold write_rows, all_lines. apply bind_write_all. clear w. intros w.
  unfold lap_lines. apply for_each_write_all. clear w. intros lap w.
  apply bind_write_all. clear w. intros w.
  unfold track_lines. apply for_each_write_all. clear w. intros track w.
  apply bind_write_all. clear w. intros w.
  unfold trackpoint_lines. apply for_each_map_write.
Qed.

Lemma concat_empty_cons (s : string) (ls : list string) :
  String.concat "" (s :: ls) = s ++ String.concat "" ls.
Proof.
  destruct ls; cbn; [now rewrite StrFacts.append_nil_r | reflexivity].
Qed.

(** Without a fault, every string is taken. *)
Lemma write_all_ok (env : Env) (ls : list string) :
  forall w,
    (forall j, j < List.length ls ->
               write_result env (List.length (written w) + j) = None) ->
    write_all env ls w
    = (Ok tt,
       mkWorld (stdout w) (out_file w) (written w ++ ls)%list
         (buffered w ++ String.concat "" ls)).
Proof.
  induction ls as [|s ls IH]; intros w Hok.
  - cbn. rewrite app_nil_r, StrFacts.append_nil_r. now destruct w.
  - rewrite write_all_cons. unfold fout_write at 1.
    pose proof (Hok 0 (Nat.lt_0_succ _)) as H0.
    rewrite Nat.add_0_r in H0. rewrite H0.
    rewrite IH.
    + cbn [stdout out_file written buffered].
      now rewrite <- app_assoc, concat_empty_cons, StrFacts.append_assoc.
    + intros j Hj. cbn [written]. rewrite length_app. cbn [List.length].
      replace (List.length (written w) + 1 + j)
        with (List.length (written w) + S j) by lia.
      apply Hok. simpl. lia.
Qed.

(** The write number [k] of the sequence is the first to raise: the
    strings before it are taken, its own text is handed over, and no
    further write is made. *)
Lemma write_all_first_fault (env : Env) (e : Exception) (ls : list string) :
  forall k w,
    k < List.length ls ->
    (forall j, j < k -> write_result env (List.length (written w) + j) = None) ->
    write_result env (List.length (written w) + k) = Some e ->
    write_all env ls w
    = (Raise e,
       mkWorld (stdout w) (out_file w) (written w ++ firstn k ls)%list
         (buffered w ++ String.concat "" (firstn (S k) ls))).
Proof.
  induction ls as [|s ls IH]; intros k w Hk Hbefore Hat;
    [simpl in Hk; lia|].
  rewrite write_all_cons. unfold fout_write at 1.
  destruct k as [|k].
  - rewrite Nat.add_0_r in Hat. rewrite Hat. cbn [firstn String.concat].
    now rewrite app_nil_r.
  - pose proof (Hbefore 0 (Nat.lt_0_succ k)) as H0.
    rewrite Nat.add_0_r in H0. rewrite H0.
    rewrite (IH k).
    + cbn [stdout out_file written buffered firstn].
      rewrite <- app_assoc. cbn [app].
      now rewrite (concat_empty_cons s), StrFacts.append_assoc.
    + simpl in Hk. lia.
    + intros j Hj. cbn [written]. rewrite length_app. cbn [List.length].
      replace (List.length (written w) + 1 + j)
        with (List.length (written w) + S j) by lia.
      apply Hbefore. lia.
    + cbn [written]. rewrite length_app. cbn [List.length].
      replace (List.length (written w) + 1 + k)
        with (List.length (written w) + S k) by lia.
      exact Hat.
Qed.

(** With faults or without: the strings taken are a prefix of the
    sequence, nothing is printed, and the file itself is not changed by
    the writes. *)
Lemma write_all_prefix (env : Env) (ls : list string) :
  forall w,
    exists k,
      k <= List.length ls /\
      written (snd (write_all env ls w)) = (written w ++ firstn k ls)%list /\
      out_file (snd (write_all env ls w)) = out_file w /\
      stdout (snd (write_all env ls w)) = stdout w.
Proof.
  induction ls as [|s ls IH]; intros w.
  - exists 0. cbn. rewrite app_nil_r. auto.
  - rewrite write_all_cons.
    destruct (write_result env (List.length (written w))) as [e|] eqn:E.
    + assert (Hwr : fout_write env s w
                    = (Raise e, mkWorld (stdout w) (out_file w) (written w)
                                  (buffered w ++ s)))
        by (unfold fout_write; now rewrite E).
      rewrite Hwr. exists 0. cbn [firstn snd written out_file stdout].
      rewrite app_nil_r.
      split; [apply Nat.le_0_l|]. repeat split.
    + assert (Hwr : fout_write env s w
                    = (Ok tt, mkWorld (stdout w) (out_file w)
                                (written w ++ [s])%list (buffered w ++ s)))
        by (unfold fout_write; now rewrite E).
      rewrite Hwr.
      destruct (IH (mkWorld (stdout w) (out_file w) (written w ++ [s])%list
                      (buffered w ++ s)))
        as (k & Hk & Hw & Hf & Hs).
      exists (S k). cbn [firstn List.length].
      rewrite Hw, Hf, Hs. cbn [written stdout out_file].
      split; [lia|]. split; [now rewrite <- app_assoc|].
      split; reflexivity.
Qed.

(** Whether a sequence of writes raises, and what. *)
Lemma write_all_result (env : Env) (ls : list string) :
  forall w,
    fst (write_all env ls w)
    = match first_write_fault (write_result env)
              (List.length (written w)) (List.length ls) with
      | Some e => Raise e
      | None => Ok tt
      end.
Proof.
  induction ls as [|s ls IH]; intros w; [reflexivity|].
  rewrite write_all_cons. cbn [List.length first_write_fault].
  unfold fout_write at 1.
  destruct (write_result env (List.length (written w))) as [e|];
    [reflexivity|].
  rewrite IH. cbn [written]. rewrite length_app. cbn [List.length].
  now rewrite Nat.add_1_r.
Qed.

Lemma first_write_fault_none (wr : nat -> option Exception)
    (start count : nat) :
  (forall j, j < count -> wr (start + j) = None) ->
  first_write_fault wr start count = None.
Proof.
  revert start. induction count as [|count IH]; intros start H;
    [reflexivity|].
  cbn [first_write_fault].
  pose proof (H 0 (Nat.lt_0_succ _)) as H0. rewrite Nat.add_0_r in H0.
  rewrite H0. apply IH. intros j Hj.
  replace (S start + j) with (start + S j) by lia. apply H. lia.
Qed.

Lemma first_write_fault_at (wr : nat -> option Exception) (e : Exception)
    (start count k : nat) :
  k < count -> (forall j, j < k -> wr (start + j) = None) ->
  wr (start + k) = Some e ->
  first_write_fault wr start count = Some e.
Proof.
  revert start k. induction count as [|count IH]; intros start k Hk Hb Hat;
    [lia|].
  cbn [first_write_fault]. destruct k as [|k].
  - rewrite Nat.add_0_r in Hat. now rewrite Hat.
  - pose proof (Hb 0 (Nat.lt_0_succ _)) as H0. rewrite Nat.add_0_r in H0.
    rewrite H0. apply (IH (S start) k); [lia| |].
    + intros j Hj. replace (S start + j) with (start + S j) by lia.
      apply Hb. lia.
    + replace (S start + k) with (start + S k) by lia. exact Hat.
Qed.

(** ** The run *)

Lemma main_unfold (env : Env) (w : World) :
  main env w
  = match main_body env w with
    | (Ok a, w') => (Ok a, w')
    | (Raise e, w') =>
        (Ok tt, printed ("Error processing file: " ++ exc_message e) w')
    end.
Proof. reflexivity. Qed.

Lemma main_body_parse_error (env : Env) (e : Exception) (w : World) :
  parse_result env = inr e -> main_body env w = (Raise e, w).
Proof.
  intros H. unfold main_body, et_parse, bind. now rewrite H.
Qed.

Lemma with_open_ext (env : Env) (body body' : M unit) (w : World) :
  (forall w0, body w0 = body' w0) ->
  with_open env body w = with_open env body' w.
Proof.
  intros H. unfold with_open. now rewrite H.
Qed.

(** Past the three checks [main] opens the file and writes [all_lines]. *)
Lemma main_body_located (env : Env) (root act : Element) (w : World) :
  parse_result env = inl root -> find_activity root = Some act ->
  main_body env w
  = with_open env
      (write_all env (all_lines (root_namespace (tag root)) act)) w.
Proof.
  intros Hp Hf. unfold main_body, et_parse, bind. rewrite Hp.
  unfold ret. unfold find_activity in Hf.
  destruct (negb (tag root =? root_namespace (tag root) ++ "TrainingCenterDatabase"));
    [discriminate|].
  destruct (find root (root_namespace (tag root) ++ "Activities")) as [acts|];
    [|discriminate].
  destruct (len acts =? 0)%nat; [discriminate|].
  destruct (find acts (root_namespace (tag root) ++ "Activity")) as [a|];
    [|discriminate].
  destruct (len a =? 0)%nat; [discriminate|]. injection Hf as ->.
  apply with_open_ext. intros w0. apply write_rows_all_lines.
Qed.

(** A document that fails a check gets one message and nothing else. *)
Lemma main_body_rejected (env : Env) (root : Element) (w : World) :
  parse_result env = inl root -> find_activity root = None ->
  main_body env w = print (check_message root) w.
Proof.
  intros Hp Hf. unfold main_body, et_parse, bind. rewrite Hp.
  unfold ret. unfold find_activity in Hf. unfold check_message.
  destruct (negb (tag root =? root_namespace (tag root) ++ "TrainingCenterDatabase"));
    [reflexivity|].
  destruct (find root (root_namespace (tag root) ++ "Activities")) as [acts|];
    [|reflexivity].
  cbn [none_or_empty].
  destruct (len acts =? 0)%nat; [reflexivity|].
  destruct (find acts (root_namespace (tag root) ++ "Activity")) as [a|];
    [|reflexivity].
  destruct (len a =? 0)%nat; [reflexivity|]. discriminate.
Qed.

Lemma main_body_unknown_root (env : Env) (root : Element) (w : World) :
  parse_result env = inl root -> unknown_root root ->
  main_body env w = print ("Unknown root found: " ++ tag root) w.
Proof.
  intros Hp Hu. unfold main_body, et_parse, bind. rewrite Hp. unfold ret.
  apply String.eqb_neq in Hu. now rewrite Hu.
Qed.

Lemma find_activity_mismatch (root : Element) :
  unknown_root root \/ activities_missing root \/ activity_missing root ->
  find_activity root = None.
Proof.
  unfold find_activity, unknown_root, activities_missing, activity_missing.
  intros [Hu | [[Ht Ha] | [Ht (acts & Ha & Hne & Hb)]]].
  - apply String.eqb_neq in Hu. now rewrite Hu.
  - rewrite <- Ht, String.eqb_refl. cbn [negb].
    destruct (find root (root_namespace (tag root) ++ "Activities")) as [acts|];
      [|reflexivity].
    simpl in Ha. now rewrite Ha.
  - rewrite <- Ht, String.eqb_refl. cbn [negb]. rewrite Ha.
    simpl in Hne. rewrite Hne.
    destruct (find acts (root_namespace (tag root) ++ "Activity")) as [a|];
      [|reflexivity].
    simpl in Hb. now rewrite Hb.
Qed.

(** The handler of [main] prints and changes nothing else. *)
Lemma main_file (env : Env) (w : World) :
  out_file (snd (main env w)) = out_file (snd (main_body env w)) /\
  written (snd (main env w)) = written (snd (main_body env w)).
Proof.
  rewrite main_unfold.
  destruct (main_body env w) as [[a|e] w']; split; reflexivity.
Qed.

Lemma main_returns (env : Env) (w : World) : fst (main env w) = Ok tt.
Proof.
  rewrite main_unfold.
  destruct (main_body env w) as [[[]|e] w']; reflexivity.
Qed.

(** The block of [main], from the file just opened, when nothing fails. *)
Lemma with_open_ok (env : Env) (ls : list string) (w : World) :
  output_ok env ->
  with_open env (write_all env ls) w
  = (Ok tt, mkWorld (stdout w) (Some (String.concat "" ls)) ls
              (String.concat "" ls)).
Proof.
  intros (Ho & Hw & Hc). unfold with_open. rewrite Ho.
  rewrite write_all_ok by (intros; apply Hw). now rewrite Hc.
Qed.

(** The log of the block of [main], with faults or without. *)
Lemma with_open_written (env : Env) (ls : list string) (w : World) :
  open_result env = None ->
  exists k,
    written (snd (with_open env (write_all env ls) w)) = firstn k ls /\
    stdout (snd (with_open env (write_all env ls) w)) = stdout w.
Proof.
  intros Ho. unfold with_open. rewrite Ho.
  destruct (write_all_prefix env ls (mkWorld (stdout w) (Some "") [] ""))
    as (k & _ & Hw & _ & Hs).
  exists k.
  destruct (write_all env ls (mkWorld (stdout w) (Some "") [] ""))
    as [[[]|e] w']; cbn [snd] in *.
  - destruct (close_result env); cbn [snd closed written stdout];
      now rewrite Hw, Hs.
  - cbn [closed written stdout]. now rewrite Hw, Hs.
Qed.

(** * The properties *)

(** ** Rows and columns *)

Lemma count_join_plain (c : ascii) (sep : string) (l : list string) :
  Forall (fun v => Str.contains c v = false) l ->
  Str.count c (Str.join sep l) = Nat.pred (List.length l) * Str.count c sep.
Proof.
  unfold Str.join. induction l as [|v l IH]; intros H; [reflexivity|].
  inversion H as [|? ? Hv Hl]; subst.
  destruct l as [|v' l].
  - cbn. now rewrite StrFacts.count_none.
  - change (String.concat sep (v :: v' :: l))
      with (v ++ sep ++ String.concat sep (v' :: l)).
    rewrite !StrFacts.count_append, (StrFacts.count_none c v Hv), (IH Hl).
    cbn [List.length Nat.pred]. lia.
Qed.

Lemma field_count_join (l : list string) :
  l <> [] -> Forall (fun v => Str.contains "," v = false) l ->
  field_count (Str.join "," l) = List.length l.
Proof.
  intros Hne H. unfold field_count. rewrite (count_join_plain _ _ _ H).
  destruct l; [congruence|]. cbn. lia.
Qed.

Lemma in_all_lines (namespace : string) (activity : Element) (s : string) :
  In s (all_lines namespace activity) ->
  s = line header_text \/ s = line "New Lap" \/ s = line "New Track" \/
  exists trackpoint, s = line (row_text trackpoint).
Proof.
  unfold all_lines, lap_lines, track_lines, trackpoint_lines.
  intros [<-|H]; [now left|].
  apply in_flat_map in H as (lap & _ & [<-|H]); [now right; left|].
  apply in_flat_map in H as (track & _ & [<-|H]); [now right; right; left|].
  apply in_map_iff in H as (tp & <- & _). right; right; right. now exists tp.
Qed.

(** Whatever a run logs as written is a prefix of [all_lines] of the
    document, or nothing. *)
Lemma written_prefix (env : Env) (pre : option string) :
  written (final env (initial_world pre)) = [] \/
  exists root act k,
    parse_result env = inl root /\ find_activity root = Some act /\
    written (final env (initial_world pre))
    = firstn k (all_lines (root_namespace (tag root)) act).
Proof.
  unfold final. destruct (main_file env (initial_world pre)) as [_ ->].
  destruct (parse_result env) as [root|e] eqn:Hp.
  - destruct (find_activity root) as [act|] eqn:Hf.
    + rewrite (main_body_located env root act _ Hp Hf).
      destruct (open_result env) as [e|] eqn:Ho.
      * unfold with_open. rewrite Ho. now left.
      * right. exists root, act.
        destruct (with_open_written env
                    (all_lines (root_namespace (tag root)) act)
                    (initial_world pre) Ho) as (k & Hw & _).
        now exists k.
    + rewrite (main_body_rejected env root (initial_world pre) Hp Hf).
      now left.
  - rewrite (main_body_parse_error env e _ Hp). now left.
Qed.

Lemma in_firstn {A} (k : nat) (l : list A) (x : A) :
  In x (firstn k l) -> In x l.
Proof.
  intros H. rewrite <- (firstn_skipn k l). apply in_or_app. now left.
Qed.

Ltac in_list := simpl; repeat (try (left; reflexivity); right).

(** Claim C1, as amended.  In every run, each string written to the file is
    the header line, a lap or track marker, or the row of a trackpoint; the
    row of a trackpoint is the comma-join of exactly 9 values, one for each
    leaf of the field map and as many as the header has columns, whatever
    sub-elements the trackpoint has; it has as many comma-separated fields
    as the header row whenever none of its values contains a comma. *)
Theorem row_column_count (env : Env) (pre : option string) (s : string) :
  In s (written (final env (initial_world pre))) ->
  s = line header_text \/ s = line "New Lap" \/ s = line "New Track" \/
  exists trackpoint,
    let data := extract_trackpoint_data (Some trackpoint) None in
    s = line (Str.join "," data) /\
    List.length data = List.length (extract_headers attributes []) /\
    List.length data = 9 /\ leaves attributes = 9 /\
    (Forall (fun v => Str.contains "," v = false) data ->
     field_count (Str.join "," data) = field_count header_text).
Proof.
  intros Hin.
  destruct (written_prefix env pre) as [E | (root & act & k & _ & _ & E)];
    rewrite E in Hin; [destruct Hin|].
  apply in_firstn, in_all_lines in Hin.
  destruct Hin as [H | [H | [H | [tp H]]]]; auto.
  right; right; right. exists tp. cbv zeta.
  assert (Hlen : List.length (extract_trackpoint_data (Some tp) None) = 9)
    by apply (extract_attribute_length (Some tp) attributes).
  split; [exact H|]. split; [exact Hlen|]. split; [exact Hlen|].
  split; [reflexivity|]. intros Hplain.
  rewrite field_count_join; [rewrite Hlen; reflexivity | | exact Hplain].
  intros E0. rewrite E0 in Hlen. discriminate.
Qed.

Lemma row_column_count_witness :
  In (line (row_text Sample.trackpoint))
    (written (final (Sample.env Sample.two_laps) (initial_world None))) /\
  (line (row_text Sample.trackpoint) = line header_text \/
   line (row_text Sample.trackpoint) = line "New Lap" \/
   line (row_text Sample.trackpoint) = line "New Track" \/
   exists trackpoint,
     let data := extract_trackpoint_data (Some trackpoint) None in
     line (row_text Sample.trackpoint) = line (Str.join "," data) /\
     List.length data = List.length (extract_headers attributes []) /\
     List.length data = 9 /\ leaves attributes = 9 /\
     (Forall (fun v => Str.contains "," v = false) data ->
      field_count (Str.join "," data) = field_count header_text)).
Proof.
  assert (H : In (line (row_text Sample.trackpoint))
                (written (final (Sample.env Sample.two_laps)
                            (initial_world None))))
    by (vm_compute; in_list).
  split; [exact H|].
  exact (row_column_count (Sample.env Sample.two_laps) None _ H).
Defined.

(** Claim C1 as stated fails: a trackpoint whose time has a comma in it
    gets a row of 10 comma-separated fields under a header of 9. *)
Lemma row_field_count_comma :
  written (final (Sample.env Sample.one_comma) (initial_world None))
  = [ line header_text; line "New Lap"; line "New Track";
      line "2024-01-01,00:00:00Z,,,,,,,," ] /\
  field_count "2024-01-01,00:00:00Z,,,,,,,," = 10 /\
  field_count header_text = 9.
Proof. repeat split; reflexivity. Qed.

(** Claim C2, as amended.  The trackpoint with Time 2024-01-01T00:00:00Z,
    Position 1.5 and 2.5, HeartRateBpm 150 and neither AltitudeMeters,
    Cadence nor Extensions, in any namespace or none, gets the 9 values in
    header order, empty for AltitudeMeters, Cadence, Speed, Watts and Grade;
    its row is [2024-01-01T00:00:00Z,1.5,2.5,,150,,,,], with four commas
    after 150, and has as many fields as the header row. *)
Theorem sample_row (ns : option string) :
  let trackpoint := in_namespace ns Sample.trackpoint in
  extract_trackpoint_data (Some trackpoint) None
  = ["2024-01-01T00:00:00Z"; "1.5"; "2.5"; ""; "150"; ""; ""; ""; ""] /\
  row_text trackpoint = "2024-01-01T00:00:00Z,1.5,2.5,,150,,,," /\
  field_count (row_text trackpoint) = field_count header_text.
Proof.
  cbv zeta.
  assert (E : extract_trackpoint_data
                (Some (in_namespace ns Sample.trackpoint)) None
              = extract_trackpoint_data (Some Sample.trackpoint) None).
  { unfold extract_trackpoint_data.
    apply extract_attribute_in_namespace; reflexivity. }
  unfold row_text. rewrite E. repeat split; reflexivity.
Qed.

(** Claim C2 as stated fails: the row written for that trackpoint is not
    the text of the claim, which has five commas after 150 and so one field
    more than the header has columns. *)
Lemma sample_row_not_as_stated :
  row_text (in_namespace (Some Sample.garmin) Sample.trackpoint)
  <> "2024-01-01T00:00:00Z,1.5,2.5,,150,,,,," /\
  field_count "2024-01-01T00:00:00Z,1.5,2.5,,150,,,,," = 10 /\
  field_count header_text = 9.
Proof.
  split; [|split; reflexivity].
  intros H. vm_compute in H. discriminate H.
Qed.

(** ** Absent sub-elements *)

Lemma lookup_path_absent (path : list string) : lookup_path None path = None.
Proof. induction path as [|k path IH]; [reflexivity | exact IH]. Qed.

Lemma cell_cons (el : option Element) (key : string)
    (pk : list string * string) :
  cell el (key :: fst pk, snd pk) = cell (step el key) pk.
Proof. reflexivity. Qed.

(** Extraction reads every cell along the path of its own leaf. *)
Lemma extract_attribute_item_paths (v : AttrValue) :
  forall el key,
    extract_attribute_item el key v = map (cell el) (leaf_paths_value key v).
Proof.
  induction v as [c|d IH] using AttrValue_induction; intros el key.
  - reflexivity.
  - rewrite extract_attribute_item_nested. fold (step el key).
    cbn [leaf_paths_value]. rewrite map_map.
    rewrite (map_ext _ (cell (step el key)) (fun pk => cell_cons el key pk)).
    unfold extract_attribute. rewrite map_flat_map.
    apply flat_map_ext_in. intros [k v] Hin.
    rewrite Forall_forall in IH. exact (IH _ Hin (step el key) k).
Qed.

Lemma extract_attribute_paths (el : option Element)
    (m : AttributeNestingLevel) :
  extract_attribute el m = map (cell el) (leaf_paths m).
Proof.
  unfold extract_attribute, leaf_paths. rewrite map_flat_map.
  apply flat_map_ext. intros [k v]. apply extract_attribute_item_paths.
Qed.

(** Claim C3.  At an interior node [key] of the field map whose child
    element is absent from the current element, extraction goes on without
    an error: the cells of [m] are those of the entries before the node,
    one empty string for each leaf below it, and those of the entries
    after it; there is one cell for each leaf of [m]; every cell is read
    along the path of its own leaf, so the others are not affected; and
    every leaf below the node, at any depth, gets the empty string. *)
Theorem absence_propagation (el : option Element)
    (pre post sub : AttributeNestingLevel) (key : string) :
  step el key = None ->
  let m := (pre ++ (key, Nested sub) :: post)%list in
  extract_attribute el m
  = (extract_attribute el pre ++ repeat "" (leaves sub)
     ++ extract_attribute el post)%list /\
  List.length (extract_attribute el m) = leaves m /\
  extract_attribute el m = map (cell el) (leaf_paths m) /\
  Forall (fun pk => cell el pk = "") (leaf_paths_value key (Nested sub)).
Proof.
  intros Habsent. cbv zeta. repeat split.
  - rewrite extract_attribute_app, extract_attribute_cons.
    rewrite extract_attribute_item_nested. fold (step el key).
    now rewrite Habsent, extract_attribute_absent.
  - apply extract_attribute_length.
  - apply extract_attribute_paths.
  - apply Forall_forall. intros pk Hin. cbn [leaf_paths_value] in Hin.
    apply in_map_iff in Hin as (pk' & <- & _).
    rewrite cell_cons, Habsent. unfold cell.
    now rewrite lookup_path_absent.
Qed.

Lemma absence_propagation_witness :
  step (Some Sample.trackpoint) "Extensions" = None /\
  extract_attribute (Some Sample.trackpoint) attributes
  = (extract_attribute (Some Sample.trackpoint) (firstn 5 attributes)
     ++ repeat "" 3 ++ extract_attribute (Some Sample.trackpoint) [])%list.
Proof.
  split; [reflexivity|].
  exact (proj1 (absence_propagation (Some Sample.trackpoint)
                  (firstn 5 attributes) []
                  [ ("TPX", Nested [ ("Speed", Leaf "Speed");
                                     ("Watts", Leaf "Watts");
                                     ("Grade", Leaf "Grade") ]) ]
                  "Extensions" eq_refl)).
Defined.

(** ** The header line *)

Lemma with_open_log (env : Env) (body : M unit) (w : World) :
  open_result env = None ->
  written (snd (with_open env body w))
  = written (snd (body (mkWorld (stdout w) (Some "") [] ""))).
Proof.
  intros Ho. unfold with_open. rewrite Ho.
  destruct (body (mkWorld (stdout w) (Some "") [] "")) as [[[]|e] w'];
    [destruct (close_result env)|]; reflexivity.
Qed.

(** Claim C4, as amended.  In a run that reaches the write phase (the
    document passes the three checks and the file opens) the header line,
    the nine column names in their fixed order joined by single commas and
    ended by a line feed, is the first string written once the first write
    returns; and when every write returns and the file closes without an
    exception, the file begins with that line. *)
Theorem header_line_first (env : Env) (root act : Element) (w : World) :
  parse_result env = inl root -> find_activity root = Some act ->
  open_result env = None ->
  (write_result env 0 = None ->
   exists more,
     written (final env w)
     = line "Time,LatitudeDegrees,LongitudeDegrees,AltitudeMeters,HRBpm,Cadence,Speed,Watts,Grade"
       :: more) /\
  ((forall k, write_result env k = None) -> close_result env = None ->
   exists rest,
     out_file (final env w)
     = Some (line "Time,LatitudeDegrees,LongitudeDegrees,AltitudeMeters,HRBpm,Cadence,Speed,Watts,Grade"
             ++ rest)).
Proof.
  intros Hp Hf Ho. unfold final.
  destruct (main_file env w) as [-> ->].
  rewrite (main_body_located env root act w Hp Hf). split.
  - intros Hw0. rewrite (with_open_log env _ w Ho). unfold all_lines.
    assert (Hwr : fout_write env (line header_text)
                    (mkWorld (stdout w) (Some "") [] "")
                  = (Ok tt, mkWorld (stdout w) (Some "") [line header_text]
                              (line header_text)))
      by (unfold fout_write; cbn [written List.length]; now rewrite Hw0).
    rewrite write_all_cons, Hwr.
    destruct (write_all_prefix env (lap_lines (root_namespace (tag root)) act)
                (mkWorld (stdout w) (Some "") [line header_text]
                   (line header_text))) as (k & _ & Hw & _).
    rewrite Hw. cbn [written app]. eexists. reflexivity.
  - intros Hw Hc.
    rewrite (with_open_ok env _ w (conj Ho (conj Hw Hc))).
    cbn [snd out_file]. unfold all_lines. rewrite concat_empty_cons.
    eexists. reflexivity.
Qed.

Lemma header_line_first_witness :
  exists rest,
    out_file (final (Sample.env Sample.two_laps) (initial_world None))
    = Some (line "Time,LatitudeDegrees,LongitudeDegrees,AltitudeMeters,HRBpm,Cadence,Speed,Watts,Grade"
            ++ rest).
Proof.
  apply (proj2 (header_line_first (Sample.env Sample.two_laps) Sample.two_laps
                  (Sample.group "Activity"
                     [ Sample.lap [Sample.trackpoint; Sample.trackpoint];
                       Sample.lap [Sample.trackpoint; Sample.trackpoint] ])
                  (initial_world None) eq_refl eq_refl eq_refl));
    [intros k|]; reflexivity.
Defined.

(** Claim C4 as stated fails: the run reaches the write phase, the file
    opens and all nine writes return, but the flush that closes the file
    raises, as on a full device; the file is left empty, without the
    header line, and the error is printed. *)
Lemma header_lost_at_close :
  find_activity Sample.two_laps
  = Some (Sample.group "Activity"
            [ Sample.lap [Sample.trackpoint; Sample.trackpoint];
              Sample.lap [Sample.trackpoint; Sample.trackpoint] ]) /\
  open_result (Edge.close_fault Sample.two_laps Edge.no_space) = None /\
  List.length
    (written (final (Edge.close_fault Sample.two_laps Edge.no_space)
                (initial_world None))) = 9 /\
  out_file (final (Edge.close_fault Sample.two_laps Edge.no_space)
              (initial_world None)) = Some "" /\
  stdout (final (Edge.close_fault Sample.two_laps Edge.no_space)
            (initial_world None))
  = ["Error processing file: [Errno 28] No space left on device"].
Proof. repeat split; reflexivity. Qed.

(** ** Documents that fail a check *)

(** Claim C6.  When the local name of the root is not
    TrainingCenterDatabase, in any namespace or none, the run prints
    [Unknown root found: ] followed by the root tag and returns; the file
    at the output path is not touched and no row is written. *)
Theorem unknown_root_reported (env : Env) (root : Element) (w : World) :
  parse_result env = inl root ->
  local_name (tag root) <> "TrainingCenterDatabase" ->
  main env w = (Ok tt, printed ("Unknown root found: " ++ tag root) w).
Proof.
  intros Hp Hl. rewrite main_unfold.
  rewrite (main_body_unknown_root env root w Hp); [reflexivity|].
  intros H. apply Hl. now apply accepted_root_local_name.
Qed.

Lemma unknown_root_reported_witness :
  main (Sample.env (in_namespace (Some Sample.garmin) (Sample.group "Foo" [])))
    (initial_world (Some "old"))
  = (Ok tt, mkWorld ["Unknown root found: {http://www.garmin.com/xmlschemas/TrainingCenterDatabase/v2}Foo"]
              (Some "old") [] "").
Proof.
  apply (unknown_root_reported
           (Sample.env (in_namespace (Some Sample.garmin) (Sample.group "Foo" [])))
           (in_namespace (Some Sample.garmin) (Sample.group "Foo" []))
           (initial_world (Some "old")) eq_refl).
  intros H. vm_compute in H. discriminate H.
Defined.

(** Claim C7.  When the run ends on a check of the document (unexpected
    root tag, Activities absent or without children, Activity absent or
    without children) the file is never opened: the run is the same
    whatever opening, writing and closing would have done, the content at the
    output path and the log of writes are as before, one message is
    printed and [main] returns. *)
Theorem mismatch_leaves_file (env : Env) (root : Element) (w : World) :
  parse_result env = inl root ->
  unknown_root root \/ activities_missing root \/ activity_missing root ->
  out_file (final env w) = out_file w /\
  written (final env w) = written w /\
  outcome env w = Ok tt /\
  (exists msg, stdout (final env w) = (stdout w ++ [msg])%list) /\
  (forall o wr cl fl, main (mkEnv (inl root) o wr cl fl) w = main env w).
Proof.
  intros Hp Hm. apply find_activity_mismatch in Hm.
  pose proof (main_body_rejected env root w Hp Hm) as Hb.
  assert (Hmain : main env w = (Ok tt, printed (check_message root) w))
    by (rewrite main_unfold, Hb; reflexivity).
  unfold final, outcome. rewrite Hmain. cbn.
  repeat split; try reflexivity.
  - now exists (check_message root).
  - intros o wr cl fl. rewrite main_unfold.
    now rewrite (main_body_rejected (mkEnv (inl root) o wr cl fl) root w
                   eq_refl Hm).
Qed.

Lemma mismatch_leaves_file_witness :
  out_file (final (mkEnv (inl (Sample.document [])) (Some (mkException "denied"))
                     (fun _ => None) None 0)
              (initial_world (Some "old")))
  = Some "old".
Proof.
  refine (proj1 (mismatch_leaves_file
                   (mkEnv (inl (Sample.document []))
                      (Some (mkException "denied")) (fun _ => None) None 0)
                   (Sample.document []) (initial_world (Some "old"))
                   eq_refl _)).
  right; right. split; [reflexivity|].
  exists (Sample.group "Activities" [Sample.group "Activity" []]).
  repeat split; reflexivity.
Defined.

(** ** Exceptions *)

Lemma with_open_stdout (env : Env) (ls : list string) (w : World) :
  stdout (snd (with_open env (write_all env ls) w)) = stdout w.
Proof.
  destruct (open_result env) as [e|] eqn:Ho.
  - unfold with_open. now rewrite Ho.
  - now destruct (with_open_written env ls w Ho) as (k & _ & Hs).
Qed.

(** What leaves the block of [main]. *)
Lemma with_open_result (env : Env) (ls : list string) (w : World) :
  open_result env = None ->
  fst (with_open env (write_all env ls) w)
  = match block_exception env (List.length ls) with
    | Some e => Raise e
    | None => Ok tt
    end.
Proof.
  intros Ho. unfold with_open, block_exception. rewrite Ho.
  pose proof (write_all_result env ls (mkWorld (stdout w) (Some "") [] ""))
    as Hr.
  cbn [written List.length] in Hr.
  destruct (write_all env ls (mkWorld (stdout w) (Some "") [] ""))
    as [[[]|e] w']; cbn [fst] in *.
  - destruct (close_result env); [reflexivity|].
    destruct (first_write_fault (write_result env) 0 (List.length ls));
      [discriminate | reflexivity].
  - destruct (close_result env); [reflexivity|].
    destruct (first_write_fault (write_result env) 0 (List.length ls));
      [now injection Hr as -> | discriminate].
Qed.

Lemma main_stdout (env : Env) (w : World) :
  stdout (snd (main env w)) = (stdout w ++ reported env)%list.
Proof.
  rewrite main_unfold. unfold reported.
  destruct (parse_result env) as [root|e] eqn:Hp.
  - destruct (find_activity root) as [act|] eqn:Hf.
    + rewrite (main_body_located env root act w Hp Hf).
      destruct (open_result env) as [e|] eqn:Ho.
      * unfold with_open. rewrite Ho. reflexivity.
      * pose proof (with_open_result env
                      (all_lines (root_namespace (tag root)) act) w Ho) as Hr.
        pose proof (with_open_stdout env
                      (all_lines (root_namespace (tag root)) act) w) as Hs.
        destruct (with_open env
                    (write_all env (all_lines (root_namespace (tag root)) act))
                    w) as [r w'].
        cbn [fst snd] in *.
        destruct (block_exception env
                    (List.length (all_lines (root_namespace (tag root)) act)))
          as [e|]; subst r; cbn [snd printed stdout].
        -- now rewrite Hs.
        -- now rewrite Hs, app_nil_r.
    + rewrite (main_body_rejected env root w Hp Hf). reflexivity.
  - rewrite (main_body_parse_error env e w Hp). reflexivity.
Qed.

(** Claim C8, as amended.  Whatever parsing, opening, writing and closing
    do, [main] returns normally and prints exactly this: for an input that
    does not parse or cannot be read, [Error processing file: ] and the
    message; for a document that fails a check, the message of the check;
    for an output path that cannot be opened, the error line again; and
    when an exception leaves the [with] block, one error line with its
    message, which is the message of the exception of closing the file
    when that fails, in the place of the one of a write that failed
    before, and else that of the first write that fails.  A run without an
    exception prints nothing.  When parsing or opening fails the file is
    as it was. *)
Theorem exceptions_reported (env : Env) (w : World) :
  outcome env w = Ok tt /\
  stdout (final env w) = (stdout w ++ reported env)%list /\
  match parse_result env with
  | inr _ => out_file (final env w) = out_file w
  | inl root =>
      match find_activity root, open_result env with
      | Some _, Some _ => out_file (final env w) = out_file w
      | _, _ => True
      end
  end.
Proof.
  split; [apply main_returns|]. split; [apply main_stdout|].
  unfold final. destruct (main_file env w) as [-> _].
  destruct (parse_result env) as [root|e] eqn:Hp.
  - destruct (find_activity root) as [act|] eqn:Hf; [|exact I].
    destruct (open_result env) as [e|] eqn:Ho; [|exact I].
    rewrite (main_body_located env root act w Hp Hf).
    unfold with_open. now rewrite Ho.
  - now rewrite (main_body_parse_error env e w Hp).
Qed.

Lemma exceptions_reported_witness :
  outcome (Edge.close_fault Sample.two_laps Edge.no_space) (initial_world None)
  = Ok tt /\
  stdout (final (Edge.close_fault Sample.two_laps Edge.no_space)
            (initial_world None))
  = ["Error processing file: [Errno 28] No space left on device"].
Proof.
  destruct (exceptions_reported
              (Edge.close_fault Sample.two_laps Edge.no_space)
              (initial_world None)) as (Hr & Hs & _).
  split; [exact Hr|]. rewrite Hs. reflexivity.
Defined.

(** Claim C8 as stated fails: the fourth write raises (the text cannot be
    encoded) and then the flush that closes the file raises too (no space
    left); the handler gets the second exception only, and the message of
    the first, raised during writing, is not reported. *)
Lemma write_exception_replaced :
  fst (write_all
         (Edge.fault_at Sample.two_laps 3 Edge.cannot_encode
            (Some Edge.no_space) 0)
         (all_lines "" (Sample.group "Activity"
                          [ Sample.lap [Sample.trackpoint; Sample.trackpoint];
                            Sample.lap [Sample.trackpoint; Sample.trackpoint] ]))
         (mkWorld [] (Some "") [] ""))
  = Raise Edge.cannot_encode /\
  stdout (final (Edge.fault_at Sample.two_laps 3 Edge.cannot_encode
                   (Some Edge.no_space) 0)
            (initial_world None))
  = ["Error processing file: [Errno 28] No space left on device"] /\
  ~ In (error_line Edge.cannot_encode)
      (stdout (final (Edge.fault_at Sample.two_laps 3 Edge.cannot_encode
                        (Some Edge.no_space) 0)
                 (initial_world None))).
Proof.
  split; [reflexivity|]. split; [reflexivity|].
  intros H. vm_compute in H. destruct H as [H|[]]. discriminate H.
Qed.

(** ** Two laps *)

Lemma main_output_ok (env : Env) (root act : Element) (w : World) :
  parse_result env = inl root -> find_activity root = Some act ->
  output_ok env ->
  main env w
  = (Ok tt,
     mkWorld (stdout w)
       (Some (String.concat "" (all_lines (root_namespace (tag root)) act)))
       (all_lines (root_namespace (tag root)) act)
       (String.concat "" (all_lines (root_namespace (tag root)) act))).
Proof.
  intros Hp Hf Hok. rewrite main_unfold.
  rewrite (main_body_located env root act w Hp Hf).
  now rewrite (with_open_ok env _ w Hok).
Qed.

Lemma line_count_line (s : string) :
  Str.contains Str.newline s = false -> line_count (line s) = 1.
Proof.
  intros H. unfold line_count, line.
  now rewrite StrFacts.count_append, (StrFacts.count_none _ _ H).
Qed.

Lemma row_text_no_feed (trackpoint : Element) :
  Forall (fun v => Str.contains Str.newline v = false)
    (extract_trackpoint_data (Some trackpoint) None) ->
  line_count (line (row_text trackpoint)) = 1.
Proof.
  intros H. unfold line_count, line, row_text.
  rewrite StrFacts.count_append, (count_join_plain _ _ _ H). cbn. lia.
Qed.

(** Claim C5, as amended.  When the Activity holds two Lap elements of the
    namespace of the root, each with one Track and each Track with two
    Trackpoints, a run in which the file opens, every write returns and
    the file closes without an exception writes nine strings in this
    order: the header line, then twice [New Lap], [New Track] and the rows
    of the two trackpoints; the file is their concatenation; and it has
    exactly nine lines whenever no extracted value contains a line feed. *)
Theorem two_laps_output (env : Env)
    (root act lap1 lap2 track1 track2 tp1 tp2 tp3 tp4 : Element)
    (w : World) :
  parse_result env = inl root -> find_activity root = Some act ->
  output_ok env ->
  iter (root_namespace (tag root) ++ "Lap") act = [lap1; lap2] ->
  iter (root_namespace (tag root) ++ "Track") lap1 = [track1] ->
  iter (root_namespace (tag root) ++ "Track") lap2 = [track2] ->
  iter (root_namespace (tag root) ++ "Trackpoint") track1 = [tp1; tp2] ->
  iter (root_namespace (tag root) ++ "Trackpoint") track2 = [tp3; tp4] ->
  let lines :=
    [ line header_text;
      line "New Lap"; line "New Track";
      line (row_text tp1); line (row_text tp2);
      line "New Lap"; line "New Track";
      line (row_text tp3); line (row_text tp4) ] in
  written (final env w) = lines /\
  out_file (final env w) = Some (String.concat "" lines) /\
  (Forall (fun tp =>
             Forall (fun v => Str.contains Str.newline v = false)
               (extract_trackpoint_data (Some tp) None))
     [tp1; tp2; tp3; tp4] ->
   line_count (String.concat "" lines) = 9).
Proof.
  intros Hp Hf Hok Hlaps Ht1 Ht2 Htp1 Htp2. cbv zeta.
  unfold final. rewrite (main_output_ok env root act w Hp Hf Hok).
  cbn [snd written out_file].
  assert (E : all_lines (root_namespace (tag root)) act
              = [ line header_text;
                  line "New Lap"; line "New Track";
                  line (row_text tp1); line (row_text tp2);
                  line "New Lap"; line "New Track";
                  line (row_text tp3); line (row_text tp4) ]).
  { unfold all_lines, lap_lines. rewrite Hlaps. cbn [flat_map].
    unfold track_lines. rewrite Ht1, Ht2. cbn [flat_map].
    unfold trackpoint_lines. rewrite Htp1, Htp2. reflexivity. }
  rewrite E. split; [reflexivity|]. split; [reflexivity|].
  intros Hfeed.
  inversion Hfeed as [|? ? H1 Hfeed1]; subst.
  inversion Hfeed1 as [|? ? H2 Hfeed2]; subst.
  inversion Hfeed2 as [|? ? H3 Hfeed3]; subst.
  inversion Hfeed3 as [|? ? H4 _]; subst.
  rewrite !concat_empty_cons. unfold line_count.
  rewrite !StrFacts.count_append. fold (line_count (line (row_text tp1))).
  fold (line_count (line (row_text tp2))).
  fold (line_count (line (row_text tp3))).
  fold (line_count (line (row_text tp4))).
  rewrite !row_text_no_feed by assumption. reflexivity.
Qed.

Lemma two_laps_output_witness :
  written (final (Sample.env Sample.two_laps) (initial_world None))
  = [ line header_text;
      line "New Lap"; line "New Track";
      line (row_text Sample.trackpoint); line (row_text Sample.trackpoint);
      line "New Lap"; line "New Track";
      line (row_text Sample.trackpoint); line (row_text Sample.trackpoint) ].
Proof.
  refine (proj1 (two_laps_output (Sample.env Sample.two_laps)
                   Sample.two_laps
                   (Sample.group "Activity"
                      [ Sample.lap [Sample.trackpoint; Sample.trackpoint];
                        Sample.lap [Sample.trackpoint; Sample.trackpoint] ])
                   (Sample.lap [Sample.trackpoint; Sample.trackpoint])
                   (Sample.lap [Sample.trackpoint; Sample.trackpoint])
                   (Sample.group "Track" [Sample.trackpoint; Sample.trackpoint])
                   (Sample.group "Track" [Sample.trackpoint; Sample.trackpoint])
                   Sample.trackpoint Sample.trackpoint
                   Sample.trackpoint Sample.trackpoint
                   (initial_world None)
                   eq_refl eq_refl _ eq_refl eq_refl eq_refl eq_refl eq_refl)).
  split; [reflexivity | split; [intros k; reflexivity | reflexivity]].
Defined.

(** Claim C5 as stated fails: with a line feed inside the time of one
    trackpoint, a document of two laps, each with one track of two
    trackpoints, gives a file of ten lines. *)
Lemma two_laps_ten_lines :
  find_activity Sample.two_laps_feed
  = Some (Sample.group "Activity"
            [ Sample.lap [Sample.trackpoint_feed; Sample.trackpoint];
              Sample.lap [Sample.trackpoint; Sample.trackpoint] ]) /\
  map (fun lap =>
         map (fun track => List.length (iter "Trackpoint" track))
           (iter "Track" lap))
    (iter "Lap" Sample.two_laps_feed)
  = [[2]; [2]] /\
  option_map line_count
    (out_file (final (Sample.env Sample.two_laps_feed) (initial_world None)))
  = Some 10.
Proof. repeat split; reflexivity. Qed.

(** ** Namespaces *)

Lemma iter_plain (t : string) (e x : Element) :
  plain_names e = true -> In x (iter t e) -> plain_names x = true.
Proof.
  induction e as [et tx cs IH] using Element_induction. intros He Hx.
  cbn [iter] in Hx. apply in_app_or in Hx as [Hx|Hx].
  - destruct ((t =? "*") || (et =? t)); [|destruct Hx].
    destruct Hx as [<-|[]]. exact He.
  - apply in_flat_map in Hx as (c & Hc & Hx).
    rewrite Forall_forall in IH. apply (IH c Hc); [|exact Hx].
    exact (plain_names_children _ c He Hc).
Qed.

(** The lines of the three loops do not depend on the namespace the
    document is in, when the loops look for that namespace. *)
Lemma all_lines_in_namespace (ns : option string) (act : Element) :
  plain_names act = true ->
  all_lines (ns_prefix ns) (in_namespace ns act) = all_lines "" act.
Proof.
  intros Hact. unfold all_lines, lap_lines. f_equal.
  fold (qname ns "Lap"). rewrite iter_qname_in_namespace by auto.
  rewrite flat_map_map. apply flat_map_ext_in. intros lap Hlap.
  apply iter_plain in Hlap; [|exact Hact]. f_equal.
  unfold track_lines.
  fold (qname ns "Track"). rewrite iter_qname_in_namespace by auto.
  rewrite flat_map_map. apply flat_map_ext_in. intros track Htrack.
  apply iter_plain in Htrack; [|exact Hlap]. f_equal.
  unfold trackpoint_lines.
  fold (qname ns "Trackpoint"). rewrite iter_qname_in_namespace by auto.
  rewrite map_map. apply map_ext_in. intros tp Htp.
  apply iter_plain in Htp; [|exact Htrack].
  now rewrite row_text_in_namespace.
Qed.

(** The checks of [main] pass or fail alike in every namespace. *)
Lemma find_activity_in_namespace (ns : option string) (root : Element) :
  namespace_ok ns = true -> plain_names root = true ->
  root_namespace (tag (in_namespace ns root)) = ns_prefix ns /\
  find_activity (in_namespace ns root)
  = option_map (in_namespace ns) (find_activity root).
Proof.
  intros Hns Hroot.
  pose proof (plain_names_tag root Hroot) as Htag.
  assert (Hp : root_namespace (tag (in_namespace ns root)) = ns_prefix ns)
    by (rewrite tag_in_namespace; now apply root_namespace_qname).
  assert (Hp0 : root_namespace (tag root) = "")
    by exact (root_namespace_qname None (tag root) eq_refl Htag).
  split; [exact Hp|].
  unfold find_activity. rewrite Hp, Hp0, tag_in_namespace.
  unfold qname at 1. rewrite StrFacts.eqb_append_l.
  change ("" ++ "TrainingCenterDatabase") with "TrainingCenterDatabase".
  destruct (negb (tag root =? "TrainingCenterDatabase")); [reflexivity|].
  fold (qname ns "Activities").
  rewrite find_qname_in_namespace by auto.
  change ("" ++ "Activities") with "Activities".
  destruct (find root "Activities") as [acts|] eqn:Ha; [|reflexivity].
  cbn [option_map]. rewrite len_in_namespace.
  destruct (len acts =? 0)%nat; [reflexivity|].
  fold (qname ns "Activity").
  rewrite find_qname_in_namespace;
    [|assumption|reflexivity|exact (plain_names_find root acts _ Hroot Ha)].
  change ("" ++ "Activity") with "Activity".
  destruct (find acts "Activity") as [act|]; [|reflexivity].
  cbn [option_map]. rewrite len_in_namespace.
  now destruct (len act =? 0)%nat.
Qed.

Lemma find_activity_plain (root act : Element) :
  plain_names root = true -> find_activity root = Some act ->
  plain_names act = true.
Proof.
  intros Hroot. unfold find_activity.
  destruct (negb (tag root =? root_namespace (tag root) ++ "TrainingCenterDatabase"));
    [discriminate|].
  destruct (find root (root_namespace (tag root) ++ "Activities")) as [acts|] eqn:Ha;
    [|discriminate].
  destruct (len acts =? 0)%nat; [discriminate|].
  destruct (find acts (root_namespace (tag root) ++ "Activity")) as [a|] eqn:Hb;
    [|discriminate].
  destruct (len a =? 0)%nat; [discriminate|]. intros H. injection H as <-.
  eapply plain_names_find; [|exact Hb].
  eapply plain_names_find; [exact Hroot|exact Ha].
Qed.

(** What a run leaves in the file, for a document in the namespace [ns],
    in terms of the document of local names. *)
Lemma main_in_namespace (ns : option string) (d : Element)
    (o : option Exception) (wr : nat -> option Exception)
    (cl : option Exception) (fl : nat) (w : World) :
  namespace_ok ns = true -> plain_names d = true ->
  match find_activity d with
  | Some act =>
      main (mkEnv (inl (in_namespace ns d)) o wr cl fl) w
      = match with_open (mkEnv (inl d) o wr cl fl)
                (write_all (mkEnv (inl d) o wr cl fl) (all_lines "" act)) w with
        | (Ok a, w') => (Ok a, w')
        | (Raise e, w') =>
            (Ok tt, printed ("Error processing file: " ++ exc_message e) w')
        end
  | None =>
      exists msg,
        main (mkEnv (inl (in_namespace ns d)) o wr cl fl) w
        = (Ok tt, printed msg w)
  end.
Proof.
  intros Hns Hd.
  destruct (find_activity_in_namespace ns d Hns Hd) as [Hp Hf].
  destruct (find_activity d) as [act|] eqn:E; cbn [option_map] in Hf.
  - rewrite main_unfold.
    rewrite (main_body_located (mkEnv (inl (in_namespace ns d)) o wr cl fl)
               (in_namespace ns d) (in_namespace ns act) w eq_refl Hf).
    rewrite Hp, all_lines_in_namespace
      by exact (find_activity_plain d act Hd E).
    reflexivity.
  - exists (check_message (in_namespace ns d)).
    rewrite main_unfold.
    now rewrite (main_body_rejected (mkEnv (inl (in_namespace ns d)) o wr cl fl)
                   (in_namespace ns d) w eq_refl Hf).
Qed.

(** Claim C9, as amended.  Two documents that differ only in the namespace
    their elements are in ([None]: no namespace), where the names of the
    namespaces are such as a parsed document has (not empty, no closing
    brace) and contain no line feed, leave the same file, whatever
    opening, writing and closing do: the same strings are written in the
    same order, so the data rows are the same, and [main] returns alike.
    The row of a trackpoint is the same in any two namespaces whatever
    their names, since its fields are found by local name only. *)
Theorem namespace_agnostic_rows (nsA nsB : option string) (d : Element)
    (o : option Exception) (wr : nat -> option Exception)
    (cl : option Exception) (fl : nat) (w : World) :
  namespace_ok nsA = true -> namespace_ok nsB = true ->
  plain_names d = true ->
  written (final (mkEnv (inl (in_namespace nsA d)) o wr cl fl) w)
  = written (final (mkEnv (inl (in_namespace nsB d)) o wr cl fl) w) /\
  out_file (final (mkEnv (inl (in_namespace nsA d)) o wr cl fl) w)
  = out_file (final (mkEnv (inl (in_namespace nsB d)) o wr cl fl) w) /\
  outcome (mkEnv (inl (in_namespace nsA d)) o wr cl fl) w
  = outcome (mkEnv (inl (in_namespace nsB d)) o wr cl fl) w /\
  (forall trackpoint nsC nsD,
     plain_names trackpoint = true ->
     row_text (in_namespace nsC trackpoint)
     = row_text (in_namespace nsD trackpoint)).
Proof.
  intros HA HB Hd.
  pose proof (main_in_namespace nsA d o wr cl fl w HA Hd) as RA.
  pose proof (main_in_namespace nsB d o wr cl fl w HB Hd) as RB.
  unfold final, outcome.
  split; [|split; [|split]].
  - destruct (find_activity d); [now rewrite RA, RB|].
    destruct RA as [ma ->], RB as [mb ->]. reflexivity.
  - destruct (find_activity d); [now rewrite RA, RB|].
    destruct RA as [ma ->], RB as [mb ->]. reflexivity.
  - destruct (find_activity d); [now rewrite RA, RB|].
    destruct RA as [ma ->], RB as [mb ->]. reflexivity.
  - intros tp nsC nsD Htp. now rewrite !row_text_in_namespace.
Qed.

Lemma namespace_agnostic_rows_witness :
  written (final (Sample.env (in_namespace (Some Sample.garmin) Sample.two_laps))
             (initial_world None))
  = written (final (Sample.env (in_namespace None Sample.two_laps))
               (initial_world None)).
Proof.
  exact (proj1 (namespace_agnostic_rows (Some Sample.garmin) None
                  Sample.two_laps None (fun _ => None) None 0
                  (initial_world None) eq_refl eq_refl eq_refl)).
Defined.

(** Claim C9 as stated fails: the same document, once in a namespace whose
    name has a line feed in it and once in the namespace [urn:b]; the
    first is reported as of unknown root and no row is written, the second
    gets its nine lines. *)
Lemma namespace_with_line_feed :
  Edge.feed_root
  = in_namespace (Some ("urn:a" ++ Str.nl ++ "b")) Sample.two_laps /\
  written (final (Sample.env Edge.feed_root) (initial_world None)) = [] /\
  List.length
    (written (final (Sample.env (in_namespace (Some "urn:b") Sample.two_laps))
                (initial_world None))) = 9 /\
  In (line (row_text Sample.trackpoint))
    (written (final (Sample.env (in_namespace (Some "urn:b") Sample.two_laps))
                (initial_world None))).
Proof.
  split; [reflexivity|]. split; [reflexivity|]. split; [reflexivity|].
  vm_compute. in_list.
Qed.

(** ** Laps, tracks and trackpoints are found by their exact tag *)

Lemma append_inv_r (a b s : string) : a ++ s = b ++ s -> a = b.
Proof.
  revert b. induction a as [|c a IH]; intros [|d b] H.
  - reflexivity.
  - apply (f_equal String.length) in H. simpl in H.
    rewrite StrFacts.length_append in H. lia.
  - apply (f_equal String.length) in H. simpl in H.
    rewrite StrFacts.length_append in H. lia.
  - simpl in H. injection H as -> H. f_equal. now apply IH.
Qed.

(** The tag tells the namespace. *)
Lemma qname_inj (ns ns' : option string) (name : string) :
  qname ns' name = qname ns name -> ns' = ns.
Proof.
  unfold qname. intros H.
  assert (E : ns_prefix ns' = ns_prefix ns) by exact (append_inv_r _ _ _ H).
  destruct ns' as [a|], ns as [b|]; simpl in E;
    try discriminate; [|reflexivity].
  injection E as E. apply append_inv_r in E. now subst.
Qed.

Lemma not_star (p name : string) :
  2 <= String.length name -> (p ++ name =? "*") = false.
Proof.
  intros H. apply String.eqb_neq. intros E.
  apply (f_equal String.length) in E.
  rewrite StrFacts.length_append in E. simpl in E. lia.
Qed.

Lemma iter_tag (t : string) (a e : Element) :
  (t =? "*") = false -> In e (iter t a) -> tag e = t.
Proof.
  intros Hstar. induction a as [et x cs IH] using Element_induction.
  cbn [iter]. rewrite Hstar. cbn [orb]. intros H.
  apply in_app_or in H as [H|H].
  - destruct (String.eqb_spec et t) as [E|]; [|destruct H].
    destruct H as [<-|[]]. exact E.
  - apply in_flat_map in H as (c & Hc & H).
    rewrite Forall_forall in IH. exact (IH c Hc H).
Qed.

(** An element with another tag is passed over; the search goes on
    below it. *)
Lemma iter_mismatch (t et : string) (x : option string) (cs : list Element) :
  (t =? "*") = false -> et <> t ->
  iter t (mkElement et x cs) = flat_map (iter t) cs.
Proof.
  intros Hstar Hne. cbn [iter]. rewrite Hstar.
  apply String.eqb_neq in Hne. now rewrite Hne.
Qed.

Lemma iter_none (t : string) (e : Element) :
  (t =? "*") = false ->
  (forall c, In c (subtree e) -> tag c <> t) -> iter t e = [].
Proof.
  intros Hstar. induction e as [et x cs IH] using Element_induction.
  intros H. rewrite iter_mismatch; [|exact Hstar|].
  - rewrite Forall_forall in IH.
    induction cs as [|c cs IHcs]; [reflexivity|]. cbn [flat_map].
    rewrite (IH c (or_introl eq_refl)).
    + apply IHcs.
      * intros c' Hc'. apply IH. now right.
      * intros c' [<-|Hc']; [apply (H _ (or_introl eq_refl))|].
        apply H. right. cbn [flat_map]. apply in_or_app. now right.
    + intros c' Hc'. apply H. right. cbn [flat_map].
      apply in_or_app. now left.
  - exact (H _ (or_introl eq_refl)).
Qed.

Lemma flat_map_none {A B} (f : A -> list B) (l : list A) :
  (forall x, In x l -> f x = []) -> flat_map f l = [].
Proof.
  induction l as [|a l IH]; intros H; [reflexivity|]. cbn [flat_map].
  rewrite (H a (or_introl eq_refl)), IH; [reflexivity|].
  intros x Hx. apply H. now right.
Qed.

Lemma flat_map_flat_map {A B C} (f : B -> list C) (g : A -> list B)
    (l : list A) :
  flat_map f (flat_map g l) = flat_map (fun x => flat_map f (g x)) l.
Proof.
  induction l as [|a l IH]; [reflexivity|]. cbn [flat_map].
  now rewrite flat_map_app, IH.
Qed.

Lemma in_subtree_children (c c' : Element) (cs : list Element) :
  In c cs -> In c' (subtree c) -> In c' (flat_map subtree cs).
Proof. intros Hc Hc'. apply in_flat_map. now exists c. Qed.

(** The row of a trackpoint is read off its children alone. *)
Lemma row_text_children (e e' : Element) :
  children e = children e' -> row_text e = row_text e'.
Proof.
  intros Hc. unfold row_text, extract_trackpoint_data, extract_attribute.
  f_equal. apply flat_map_ext. intros [k v].
  assert (Hfind : forall path, find e path = find e' path)
    by (intros path; unfold find; now rewrite Hc).
  destruct v as [c|d]; cbn [extract_attribute_item fst snd].
  - unfold get_element_text. now rewrite Hfind.
  - now rewrite Hfind.
Qed.

Lemma lines_mismatch (t et : string) (x : option string) (cs : list Element)
    (f : Element -> list string) :
  (t =? "*") = false -> et <> t ->
  flat_map f (iter t (mkElement et x cs))
  = flat_map (fun c => flat_map f (iter t c)) cs.
Proof.
  intros Hstar Hne. rewrite iter_mismatch by assumption.
  apply flat_map_flat_map.
Qed.

Lemma lines_none (t et : string) (x : option string) (cs : list Element)
    (f : Element -> list string) :
  (t =? "*") = false -> et <> t ->
  (forall c, In c (flat_map subtree cs) -> tag c <> t) ->
  flat_map f (iter t (mkElement et x cs)) = [].
Proof.
  intros Hstar Hne H. rewrite iter_mismatch by assumption.
  rewrite (flat_map_none (iter t) cs); [reflexivity|]. intros c Hc.
  apply iter_none; [exact Hstar|]. intros c' Hc'.
  apply H. exact (in_subtree_children c c' cs Hc Hc').
Qed.

Lemma filter_flat_map {A B} (f : B -> bool) (g : A -> list B) (l : list A) :
  filter f (flat_map g l) = flat_map (fun x => filter f (g x)) l.
Proof.
  induction l as [|a l IH]; [reflexivity|]. cbn [flat_map].
  now rewrite filter_app, IH.
Qed.

(** [iter] finds the elements of the subtree with the tag, all of them, in
    document order, the start element included. *)
Lemma iter_filter (t : string) (e : Element) :
  (t =? "*") = false ->
  iter t e = filter (fun c => tag c =? t) (subtree e).
Proof.
  intros Hstar. induction e as [et x cs IH] using Element_induction.
  cbn [iter subtree filter tag]. rewrite Hstar. cbn [orb].
  rewrite filter_flat_map.
  replace (flat_map (iter t) cs)
    with (flat_map (fun c => filter (fun c0 => tag c0 =? t) (subtree c)) cs).
  - now destruct (et =? t).
  - apply flat_map_ext_in. intros c Hc. symmetry.
    rewrite Forall_forall in IH. now apply IH.
Qed.

Lemma lines_found (t : string) (x : option string) (cs : list Element)
    (f : Element -> list string) :
  (t =? "*") = false ->
  flat_map f (iter t (mkElement t x cs))
  = (f (mkElement t x cs) ++ flat_map (fun c => flat_map f (iter t c)) cs)%list.
Proof.
  intros Hstar. cbn [iter]. rewrite Hstar, String.eqb_refl.
  cbn [orb app flat_map]. now rewrite flat_map_flat_map.
Qed.

(** Claim C10, as amended.  For a root in the namespace [ns] that passes
    the first check, the loops of [main] look for Lap, Track and
    Trackpoint under the prefix read off the root tag, which is that of
    [ns]: they find the elements with exactly that tag, all of them, at
    any depth and in document order, and each element found gives its
    marker or its row.  A Lap, Track or Trackpoint element in another
    namespace [ns'] (or in none, under a root in a namespace) is not
    found: it adds no line of its own.  What is below it is searched all
    the same, so the lines of what is found there are written; it adds no
    line at all, neither marker nor row, when nothing below it has the tag
    looked for.  Inside a trackpoint that is found, fields in another
    namespace are read as if they had none. *)
Theorem located_by_exact_namespace (ns ns' : option string)
    (x : option string) (cs : list Element) :
  qname ns "TrainingCenterDatabase"
  = root_namespace (qname ns "TrainingCenterDatabase")
    ++ "TrainingCenterDatabase" ->
  ns' <> ns ->
  let p := root_namespace (qname ns "TrainingCenterDatabase") in
  p = ns_prefix ns /\
  (forall name a,
     In name ["Lap"; "Track"; "Trackpoint"] ->
     iter (p ++ name) a
     = filter (fun e => tag e =? qname ns name) (subtree a)) /\
  (lap_lines p (mkElement (qname ns "Lap") x cs)
   = (line "New Lap" :: track_lines p (mkElement (qname ns "Lap") x cs)
      ++ flat_map (lap_lines p) cs)%list /\
   track_lines p (mkElement (qname ns "Track") x cs)
   = (line "New Track"
      :: trackpoint_lines p (mkElement (qname ns "Track") x cs)
      ++ flat_map (track_lines p) cs)%list /\
   trackpoint_lines p (mkElement (qname ns "Trackpoint") x cs)
   = (line (row_text (mkElement (qname ns "Trackpoint") x cs))
      :: flat_map (trackpoint_lines p) cs)%list) /\
  (lap_lines p (mkElement (qname ns' "Lap") x cs)
   = flat_map (lap_lines p) cs /\
   track_lines p (mkElement (qname ns' "Track") x cs)
   = flat_map (track_lines p) cs /\
   trackpoint_lines p (mkElement (qname ns' "Trackpoint") x cs)
   = flat_map (trackpoint_lines p) cs) /\
  ((forall c, In c (flat_map subtree cs) -> tag c <> qname ns "Lap") ->
   lap_lines p (mkElement (qname ns' "Lap") x cs) = []) /\
  ((forall c, In c (flat_map subtree cs) -> tag c <> qname ns "Track") ->
   track_lines p (mkElement (qname ns' "Track") x cs) = []) /\
  ((forall c, In c (flat_map subtree cs) -> tag c <> qname ns "Trackpoint") ->
   trackpoint_lines p (mkElement (qname ns' "Trackpoint") x cs) = []) /\
  (forall fields,
     Forall (fun f => plain_names f = true) fields ->
     row_text (mkElement (qname ns "Trackpoint") x
                 (map (in_namespace ns') fields))
     = row_text (mkElement "Trackpoint" x fields)).
Proof.
  intros Hroot Hdiff. cbv zeta.
  assert (Hp : root_namespace (qname ns "TrainingCenterDatabase")
               = ns_prefix ns)
    by (symmetry; exact (append_inv_r _ _ _ Hroot)).
  rewrite Hp.
  assert (Hne : forall name, qname ns' name <> ns_prefix ns ++ name)
    by (intros name E; apply Hdiff; exact (qname_inj ns ns' name E)).
  assert (Hstar : forall name, 2 <= String.length name ->
                               (ns_prefix ns ++ name =? "*") = false)
    by (intros name; apply not_star).
  split; [reflexivity|]. split.
  { intros name a Hname. apply iter_filter.
    destruct Hname as [<-|[<-|[<-|[]]]]; apply Hstar; simpl; lia. }
  split.
  { split; [|split].
    - unfold lap_lines at 1, qname.
      rewrite lines_found by (apply Hstar; simpl; lia). reflexivity.
    - unfold track_lines at 1, qname.
      rewrite lines_found by (apply Hstar; simpl; lia). reflexivity.
    - unfold trackpoint_lines, qname. cbn [iter].
      rewrite (Hstar "Trackpoint") by (simpl; lia).
      rewrite String.eqb_refl. cbn [orb app map].
      now rewrite map_flat_map. }
  split.
  { split; [|split].
    - apply lines_mismatch; [apply Hstar; simpl; lia | apply Hne].
    - apply lines_mismatch; [apply Hstar; simpl; lia | apply Hne].
    - unfold trackpoint_lines. rewrite iter_mismatch;
        [apply map_flat_map | apply Hstar; simpl; lia | apply Hne]. }
  split; [intros H; apply lines_none;
          [apply Hstar; simpl; lia | apply Hne | exact H]|].
  split; [intros H; apply lines_none;
          [apply Hstar; simpl; lia | apply Hne | exact H]|].
  split.
  { intros H. unfold trackpoint_lines.
    rewrite iter_mismatch; [|apply Hstar; simpl; lia | apply Hne].
    rewrite (flat_map_none (iter (ns_prefix ns ++ "Trackpoint")) cs);
      [reflexivity|]. intros c Hc.
    apply iter_none; [apply Hstar; simpl; lia|]. intros c' Hc'.
    apply H. exact (in_subtree_children c c' cs Hc Hc'). }
  intros fields Hfields.
  rewrite (row_text_children _ (in_namespace ns' (mkElement "Trackpoint" x fields)))
    by reflexivity.
  apply row_text_in_namespace. cbn [plain_names].
  apply andb_true_iff. split; [reflexivity|].
  apply forallb_forall. now apply Forall_forall.
Qed.

Lemma located_by_exact_namespace_witness :
  lap_lines (ns_prefix (Some Sample.garmin))
    (mkElement (qname None "Lap") None
       [ in_namespace (Some Sample.garmin)
           (Sample.group "Track" [Sample.trackpoint; Sample.trackpoint]) ])
  = [].
Proof.
  pose proof (located_by_exact_namespace (Some Sample.garmin) None None
                [ in_namespace (Some Sample.garmin)
                    (Sample.group "Track"
                       [Sample.trackpoint; Sample.trackpoint]) ]
                eq_refl) as H.
  assert (Hdiff : @None string <> Some Sample.garmin) by discriminate.
  destruct (H Hdiff) as (Hp & _ & _ & _ & Hnone & _).
  cbv zeta in Hp, Hnone. rewrite Hp in Hnone. apply Hnone.
  intros c Hc. vm_compute in Hc.
  repeat (destruct Hc as [<-|Hc]; [intros E; vm_compute in E; discriminate E|]).
  destruct Hc.
Defined.

(** Claim C10 as stated fails: a Lap in no namespace, inside a Lap that is
    found, holds the only Track and Trackpoint of the document; it is not
    skipped entirely, for the row of its trackpoint is written, under the
    marker of the lap around it. *)
Lemma row_from_inside_other_lap :
  iter (qname (Some Sample.garmin) "Trackpoint") Edge.lap_elsewhere_inside
  = [ in_namespace (Some Sample.garmin) Sample.trackpoint ] /\
  List.length
    (iter (qname (Some Sample.garmin) "Lap") Edge.lap_elsewhere_inside) = 1 /\
  written (final (Sample.env Edge.lap_elsewhere_inside) (initial_world None))
  = [ line header_text; line "New Lap"; line "New Track";
      line (row_text (in_namespace (Some Sample.garmin) Sample.trackpoint)) ].
Proof. repeat split; reflexivity. Qed.

(** Laps in no namespace under a root in a namespace: the file holds the
    header line and nothing else. *)
Example laps_elsewhere_header_only :
  written (final (Sample.env Sample.laps_elsewhere) (initial_world None))
  = [ line header_text ].
Proof. reflexivity. Qed.

(** * Further properties of the code *)

(** ** The first check of [main] *)

Lemma dot_star_rbrace_no_feed (s m : string) :
  dot_star_rbrace s = Some m -> Str.contains Str.newline m = false.
Proof.
  revert m. induction s as [|c s IH]; simpl; intros m H; [discriminate|].
  destruct (Ascii.eqb c Str.newline) eqn:Ec.
  - destruct (Ascii.eqb_spec c "}") as [->|]; [discriminate Ec|discriminate].
  - destruct (dot_star_rbrace s) as [m'|].
    + injection H as <-. simpl. now rewrite Ec, (IH m' eq_refl).
    + destruct (Ascii.eqb c "}"); [|discriminate].
      injection H as <-. simpl. now rewrite Ec.
Qed.

Lemma root_accepted_forms (t : string) :
  t = root_namespace t ++ "TrainingCenterDatabase" <->
  t = "TrainingCenterDatabase" \/
  exists uri,
    Str.contains Str.newline uri = false /\
    t = qname (Some uri) "TrainingCenterDatabase".
Proof.
  split.
  - unfold root_namespace, re_match_namespace.
    destruct t as [|c s]; [discriminate|].
    destruct (Ascii.eqb_spec c "{") as [->|Hc]; [|intros H; now left].
    destruct (dot_star_rbrace s) as [m|] eqn:E; simpl; [|discriminate].
    pose proof (dot_star_rbrace_no_feed _ _ E) as Hfeed.
    destruct (dot_star_rbrace_some _ _ E) as (q & r & -> & _).
    intros H. right. exists q. split.
    + rewrite StrFacts.contains_append in Hfeed.
      now apply orb_false_iff in Hfeed.
    + rewrite H, qname_some. now rewrite StrFacts.append_assoc.
  - intros [->|(uri & Hfeed & ->)]; [reflexivity|].
    unfold root_namespace. rewrite qname_some. simpl.
    rewrite (dot_star_rbrace_uri uri "TrainingCenterDatabase" Hfeed eq_refl).
    simpl. now rewrite StrFacts.append_assoc.
Qed.

(** The root passes the first check of [main] exactly when its tag is
    TrainingCenterDatabase, bare or after a namespace in braces whose name
    has no line feed in it. *)
Theorem root_accepted_iff (t : string) :
  t = root_namespace t ++ "TrainingCenterDatabase" <->
  t = "TrainingCenterDatabase" \/
  exists uri,
    Str.contains Str.newline uri = false /\
    t = qname (Some uri) "TrainingCenterDatabase".
Proof. exact (root_accepted_forms t). Qed.

(** A root in a namespace whose name has a line feed in it is reported as
    unknown, whatever its local name, TrainingCenterDatabase included: the
    pattern that reads the namespace off the tag does not cross a line
    feed. *)
Theorem line_feed_namespace_rejected (env : Env) (root : Element)
    (uri l : string) (w : World) :
  parse_result env = inl root ->
  tag root = qname (Some uri) l ->
  Str.contains Str.newline uri = true ->
  main env w = (Ok tt, printed ("Unknown root found: " ++ tag root) w).
Proof.
  intros Hp Ht Hfeed. rewrite main_unfold.
  rewrite (main_body_unknown_root env root w Hp); [reflexivity|].
  unfold unknown_root. intros H. apply root_accepted_forms in H.
  assert (Hc : Str.contains Str.newline (tag root) = true).
  { rewrite Ht, qname_some. simpl. rewrite StrFacts.contains_append, Hfeed.
    reflexivity. }
  destruct H as [H|(u & Hu & H)]; rewrite H in Hc.
  - discriminate Hc.
  - rewrite qname_some in Hc. simpl in Hc.
    rewrite StrFacts.contains_append, Hu in Hc. discriminate Hc.
Qed.

Lemma line_feed_namespace_rejected_witness :
  main (Sample.env Edge.feed_root) (initial_world None)
  = (Ok tt,
     printed ("Unknown root found: " ++ tag Edge.feed_root)
       (initial_world None)).
Proof.
  apply (line_feed_namespace_rejected (Sample.env Edge.feed_root)
           Edge.feed_root ("urn:a" ++ Str.nl ++ "b") "TrainingCenterDatabase"
           (initial_world None)); reflexivity.
Defined.

(** ** The second and third check *)

(** The checks are made in order and each has its own message: a root that
    passes with Activities absent or without children gives [Unable to find
    Activities under root]; with Activities in place and Activity absent or
    without children, [Unable to find Activity under Activities].  The run
    prints that one line, returns, and leaves the file alone. *)
Theorem missing_element_messages (env : Env) (root : Element) (w : World) :
  parse_result env = inl root ->
  (activities_missing root ->
   main env w = (Ok tt, printed "Unable to find Activities under root" w)) /\
  (activity_missing root ->
   main env w = (Ok tt, printed "Unable to find Activity under Activities" w)).
Proof.
  intros Hp. rewrite main_unfold.
  unfold main_body, et_parse, bind. rewrite Hp. unfold ret.
  unfold activities_missing, activity_missing. split.
  - intros [Ht Ha]. rewrite <- Ht, String.eqb_refl. cbn [negb].
    destruct (find root (root_namespace (tag root) ++ "Activities")) as [acts|];
      [|reflexivity].
    simpl in Ha. now rewrite Ha.
  - intros [Ht (acts & Ha & Hne & Hb)].
    rewrite <- Ht, String.eqb_refl. cbn [negb]. rewrite Ha.
    simpl in Hne. rewrite Hne.
    destruct (find acts (root_namespace (tag root) ++ "Activity")) as [a|];
      [|reflexivity].
    simpl in Hb. now rewrite Hb.
Qed.

Lemma missing_element_messages_witness :
  main (Sample.env Edge.no_activity) (initial_world (Some "old"))
  = (Ok tt, mkWorld ["Unable to find Activities under root"] (Some "old")
              [] "")
  /\
  main (Sample.env Edge.empty_activity) (initial_world (Some "old"))
  = (Ok tt, mkWorld ["Unable to find Activity under Activities"]
              (Some "old") [] "").
Proof.
  split.
  - apply (proj1 (missing_element_messages (Sample.env Edge.no_activity)
                    Edge.no_activity (initial_world (Some "old")) eq_refl)).
    split; reflexivity.
  - apply (proj2 (missing_element_messages (Sample.env Edge.empty_activity)
                    Edge.empty_activity (initial_world (Some "old")) eq_refl)).
    split; [reflexivity|].
    exists (Sample.group "Activities" [Sample.group "Activity" []]).
    repeat split; reflexivity.
Defined.

Lemma find_app_split {A} (f : A -> bool) (l1 l2 : list A) :
  List.find f (l1 ++ l2)%list
  = match List.find f l1 with
    | Some x => Some x
    | None => List.find f l2
    end.
Proof.
  induction l1 as [|a l1 IH]; simpl; [reflexivity|].
  now destruct (f a).
Qed.

Lemma find_none_forall {A} (f : A -> bool) (l : list A) :
  Forall (fun x => f x = false) l -> List.find f l = None.
Proof.
  induction 1 as [|a l Ha _ IH]; simpl; [reflexivity|]. now rewrite Ha.
Qed.

Lemma find_children_app (t : string) (x : option string)
    (l1 l2 : list Element) (c : Element) (path : string) :
  find (mkElement t x (l1 ++ c :: l2)) path
  = match List.find (fun e => tag_matches path (tag e)) l1 with
    | Some e => Some e
    | None =>
        if tag_matches path (tag c) then Some c
        else List.find (fun e => tag_matches path (tag e)) l2
    end.
Proof. unfold find. cbn [children]. now rewrite find_app_split. Qed.

(** Only the first Activity counts.  Whatever follows, inside Activities,
    an element that passes for Activity (further activities included) has
    no effect on the run: put anything else there and [main] does the
    same. *)
Theorem later_activities_ignored (rt atag : string) (rx ax : option string)
    (rpre rpost pre post post' : list Element) (act : Element)
    (o : option Exception) (wr : nat -> option Exception)
    (cl : option Exception) (fl : nat) (w : World) :
  tag_matches (root_namespace rt ++ "Activity") (tag act) = true ->
  main (mkEnv (inl (mkElement rt rx
                      (rpre ++ mkElement atag ax (pre ++ act :: post) :: rpost)))
          o wr cl fl) w
  = main (mkEnv (inl (mkElement rt rx
                        (rpre ++ mkElement atag ax (pre ++ act :: post') :: rpost)))
            o wr cl fl) w.
Proof.
  intros Hact.
  assert (Hlen : forall p, (len (mkElement atag ax (pre ++ act :: p)) =? 0)%nat
                           = false).
  { intros p. apply Nat.eqb_neq. unfold len. cbn [children].
    rewrite length_app. cbn [List.length]. lia. }
  assert (Hfind : forall p,
            find (mkElement atag ax (pre ++ act :: p))
              (root_namespace rt ++ "Activity")
            = match List.find
                      (fun e => tag_matches (root_namespace rt ++ "Activity")
                                  (tag e)) pre with
              | Some e => Some e
              | None => Some act
              end).
  { intros p. rewrite find_children_app. now rewrite Hact. }
  rewrite !main_unfold.
  unfold main_body, et_parse, bind. cbn [parse_result]. unfold ret.
  cbn [tag].
  destruct (negb (rt =? root_namespace rt ++ "TrainingCenterDatabase"));
    [reflexivity|].
  rewrite !find_children_app. cbn [tag].
  destruct (List.find
              (fun e => tag_matches (root_namespace rt ++ "Activities") (tag e))
              rpre) as [acts|]; [reflexivity|].
  destruct (tag_matches (root_namespace rt ++ "Activities") atag);
    [|reflexivity].
  now rewrite !Hlen, !Hfind.
Qed.

Lemma later_activities_ignored_witness :
  main (Sample.env (Edge.two_activities [Sample.lap [Sample.trackpoint_comma]]))
    (initial_world None)
  = main (Sample.env (Edge.two_activities [])) (initial_world None).
Proof.
  exact (later_activities_ignored "TrainingCenterDatabase" "Activities"
           None None [] [] []
           [Sample.group "Activity" [Sample.lap [Sample.trackpoint_comma]]]
           [Sample.group "Activity" []]
           (Sample.group "Activity" [Sample.lap [Sample.trackpoint]])
           None (fun _ => None) None 0 (initial_world None) eq_refl).
Defined.

(** ** Writing *)

(** When the write number [k] is the first to raise, no further write is
    made: the run has taken the [k] lines before it, the file is closed,
    one error line is printed, with the message of that exception or, when
    closing the file fails too, of that one, and [main] returns.  Nothing
    is taken back: the file holds a part, from its start, of the text
    handed over so far; how much of it, the buffering decides. *)
Theorem write_fault_stops_run (env : Env) (root act : Element)
    (e : Exception) (k : nat) (w : World) :
  parse_result env = inl root -> find_activity root = Some act ->
  open_result env = None ->
  k < List.length (all_lines (root_namespace (tag root)) act) ->
  (forall j, j < k -> write_result env j = None) ->
  write_result env k = Some e ->
  main env w
  = (Ok tt,
     printed (error_line (match close_result env with
                          | Some e' => e'
                          | None => e
                          end))
       (mkWorld (stdout w)
          (Some (Str.take (flushed env)
                   (String.concat ""
                      (firstn (S k)
                         (all_lines (root_namespace (tag root)) act)))))
          (firstn k (all_lines (root_namespace (tag root)) act))
          (String.concat ""
             (firstn (S k) (all_lines (root_namespace (tag root)) act))))).
Proof.
  intros Hp Hf Ho Hk Hbefore Hat. rewrite main_unfold.
  rewrite (main_body_located env root act w Hp Hf).
  unfold with_open. rewrite Ho.
  now rewrite (write_all_first_fault env e _ k
                 (mkWorld (stdout w) (Some "") [] "") Hk Hbefore Hat).
Qed.

Lemma write_fault_stops_run_witness :
  main (Edge.fault_at Sample.two_laps 4 Edge.cannot_encode None 37)
    (initial_world (Some "old"))
  = (Ok tt,
     mkWorld ["Error processing file: 'ascii' codec can't encode character"]
       (Some "Time,LatitudeDegrees,LongitudeDegrees")
       [ line header_text; line "New Lap"; line "New Track";
         line (row_text Sample.trackpoint) ]
       (String.concat ""
          [ line header_text; line "New Lap"; line "New Track";
            line (row_text Sample.trackpoint);
            line (row_text Sample.trackpoint) ])).
Proof.
  apply (write_fault_stops_run
           (Edge.fault_at Sample.two_laps 4 Edge.cannot_encode None 37)
           Sample.two_laps
           (Sample.group "Activity"
              [ Sample.lap [Sample.trackpoint; Sample.trackpoint];
                Sample.lap [Sample.trackpoint; Sample.trackpoint] ])
           Edge.cannot_encode 4
           (initial_world (Some "old")) eq_refl eq_refl eq_refl).
  - vm_compute. repeat constructor.
  - intros j Hj. simpl.
    destruct j as [|[|[|[|j]]]]; try reflexivity. lia.
  - reflexivity.
Defined.

(** A run in which the file opens, every write returns and the file
    closes without an exception, on a document that passes the checks,
    prints nothing and replaces the file: what was at the output path
    before has no part in the result, and a second run leaves the same
    file as the first. *)
Theorem run_overwrites (env : Env) (root act : Element) (w w' : World) :
  parse_result env = inl root -> find_activity root = Some act ->
  output_ok env ->
  stdout (final env w) = stdout w /\
  outcome env w = Ok tt /\
  out_file (final env w)
  = Some (String.concat "" (all_lines (root_namespace (tag root)) act)) /\
  out_file (final env w) = out_file (final env w') /\
  written (final env w) = written (final env w') /\
  out_file (final env (final env w)) = out_file (final env w).
Proof.
  intros Hp Hf Hok. unfold final, outcome.
  rewrite !(main_output_ok env root act _ Hp Hf Hok).
  repeat split.
Qed.

Lemma run_overwrites_witness :
  out_file (final (Sample.env Sample.two_laps) (initial_world (Some "old")))
  = out_file (final (Sample.env Sample.two_laps) (initial_world None)).
Proof.
  refine (proj1 (proj2 (proj2 (proj2 (run_overwrites
            (Sample.env Sample.two_laps) Sample.two_laps
            (Sample.group "Activity"
               [ Sample.lap [Sample.trackpoint; Sample.trackpoint];
                 Sample.lap [Sample.trackpoint; Sample.trackpoint] ])
            (initial_world (Some "old")) (initial_world None)
            eq_refl eq_refl _))))).
  split; [reflexivity | split; [intros k; reflexivity | reflexivity]].
Defined.

(** ** The three loops *)

(** With no Lap (of the namespace of the root) anywhere below the
    Activity, a run in which the file opens, every write returns and the
    file closes without an exception leaves the header line in the file
    and nothing else, whatever tracks and trackpoints the document has; a Lap with no Track below it
    gives its marker line alone, and a Track with no Trackpoint below it
    its marker alone. *)
Theorem empty_levels (env : Env) (root act : Element) (w : World) :
  parse_result env = inl root -> find_activity root = Some act ->
  output_ok env ->
  ((forall c, In c (subtree act) ->
      tag c <> root_namespace (tag root) ++ "Lap") ->
   out_file (final env w) = Some (line header_text)) /\
  (forall lap,
     (forall c, In c (subtree lap) ->
        tag c <> root_namespace (tag root) ++ "Track") ->
     track_lines (root_namespace (tag root)) lap = []) /\
  (forall track,
     (forall c, In c (subtree track) ->
        tag c <> root_namespace (tag root) ++ "Trackpoint") ->
     trackpoint_lines (root_namespace (tag root)) track = []).
Proof.
  intros Hp Hf Hok. split; [|split].
  - intros H. unfold final.
    rewrite (main_output_ok env root act w Hp Hf Hok). cbn [snd out_file].
    unfold all_lines, lap_lines.
    rewrite (iter_none _ act); [|apply not_star; simpl; lia|exact H].
    reflexivity.
  - intros lap H. unfold track_lines.
    now rewrite (iter_none _ lap); [|apply not_star; simpl; lia|exact H].
  - intros track H. unfold trackpoint_lines.
    now rewrite (iter_none _ track); [|apply not_star; simpl; lia|exact H].
Qed.

Lemma empty_levels_witness :
  out_file (final (Sample.env Edge.no_laps) (initial_world (Some "old")))
  = Some (line header_text).
Proof.
  refine (proj1 (empty_levels (Sample.env Edge.no_laps) Edge.no_laps
                   (Sample.group "Activity" [Sample.field "Creator" "watch"])
                   (initial_world (Some "old")) eq_refl eq_refl _) _).
  - split; [reflexivity | split; [intros k; reflexivity | reflexivity]].
  - intros c Hc. vm_compute in Hc.
    repeat (destruct Hc as [<-|Hc]; [intros E; vm_compute in E; discriminate E|]).
    destruct Hc.
Defined.

Lemma tag_differs (p a b : string) : a <> b -> p ++ a <> p ++ b.
Proof. intros Hne E. apply Hne. exact (StrFacts.append_inv_l p a b E). Qed.

(** The loops search at any depth, so the levels need not be nested as
    children: a found Lap gives its marker, then the lines of every Track
    below it, however deep, and the laps found below it are visited again
    on their own.  A lap inside a lap thus has its tracks written twice,
    once under each marker. *)
Theorem laps_at_any_depth (p : string) (x x' : option string)
    (cs : list Element) :
  lap_lines p (mkElement (p ++ "Lap") x cs)
  = (line "New Lap" :: flat_map (track_lines p) cs
     ++ flat_map (lap_lines p) cs)%list /\
  ((forall c, In c (flat_map subtree cs) -> tag c <> p ++ "Lap") ->
   lap_lines p (mkElement (p ++ "Lap") x [mkElement (p ++ "Lap") x' cs])
   = ((line "New Lap" :: flat_map (track_lines p) cs)
      ++ line "New Lap" :: flat_map (track_lines p) cs)%list).
Proof.
  assert (Hstar : forall name, 2 <= String.length name ->
                               (p ++ name =? "*") = false)
    by (intros name; apply not_star).
  assert (Htracks : forall y ds,
            track_lines p (mkElement (p ++ "Lap") y ds)
            = flat_map (track_lines p) ds).
  { intros y ds. apply lines_mismatch; [apply Hstar; simpl; lia|].
    apply tag_differs. discriminate. }
  assert (Hlap : forall y ds,
            lap_lines p (mkElement (p ++ "Lap") y ds)
            = (line "New Lap" :: flat_map (track_lines p) ds
               ++ flat_map (lap_lines p) ds)%list).
  { intros y ds. unfold lap_lines at 1. cbn [iter].
    rewrite (Hstar "Lap") by (simpl; lia).
    rewrite String.eqb_refl. cbn [orb app flat_map].
    rewrite Htracks, flat_map_flat_map. reflexivity. }
  split; [apply Hlap|]. intros Hnone.
  rewrite Hlap. cbn [flat_map]. rewrite !app_nil_r, Htracks, Hlap.
  assert (E : flat_map (lap_lines p) cs = []).
  { apply flat_map_none. intros c Hc. unfold lap_lines.
    rewrite (iter_none _ c); [reflexivity|apply Hstar; simpl; lia|].
    intros c' Hc'. apply Hnone. exact (in_subtree_children c c' cs Hc Hc'). }
  rewrite E, app_nil_r. reflexivity.
Qed.

Lemma laps_at_any_depth_witness :
  written (final (Sample.env Edge.nested_laps) (initial_world None))
  = [ line header_text;
      line "New Lap"; line "New Track"; line (row_text Sample.trackpoint);
      line "New Lap"; line "New Track"; line (row_text Sample.trackpoint) ].
Proof.
  pose proof (proj2 (laps_at_any_depth "" None None
                       [Sample.group "Track" [Sample.trackpoint]])) as H.
  assert (Hnone : forall c,
            In c (flat_map subtree [Sample.group "Track" [Sample.trackpoint]]) ->
            tag c <> "" ++ "Lap").
  { intros c Hc. vm_compute in Hc.
    repeat (destruct Hc as [<-|Hc]; [intros E; vm_compute in E; discriminate E|]).
    destruct Hc. }
  specialize (H Hnone).
  change (written (final (Sample.env Edge.nested_laps) (initial_world None)))
    with (line header_text
          :: lap_lines ""
               (mkElement ("" ++ "Lap") None
                  [mkElement ("" ++ "Lap") None
                     [Sample.group "Track" [Sample.trackpoint]]])).
  rewrite H. reflexivity.
Defined.

(** ** Cell values *)

Lemma lstrip_first (s : string) (c : ascii) :
  first_char (Str.lstrip s) = Some c -> Str.isspace c = false.
Proof.
  induction s as [|a s IH]; simpl; [discriminate|].
  destruct (Str.isspace a) eqn:Ea; [exact IH|].
  simpl. intros H. injection H as <-. exact Ea.
Qed.

Lemma rstrip_first (s : string) (c : ascii) :
  first_char s = Some c -> Str.isspace c = false ->
  first_char (Str.rstrip s) = Some c.
Proof.
  destruct s as [|a s]; simpl; [discriminate|].
  intros H Hc. injection H as ->.
  destruct (Str.rstrip s); [now rewrite Hc | reflexivity].
Qed.

Lemma rstrip_last (s : string) (c : ascii) :
  last_char (Str.rstrip s) = Some c -> Str.isspace c = false.
Proof.
  induction s as [|a s IH]; simpl; [discriminate|].
  destruct (Str.rstrip s) as [|b r] eqn:E.
  - destruct (Str.isspace a) eqn:Ea; simpl; [discriminate|].
    intros H. injection H as <-. exact Ea.
  - exact IH.
Qed.

Lemma rstrip_id (s : string) :
  match last_char s with
  | Some c => Str.isspace c = false
  | None => True
  end ->
  Str.rstrip s = s.
Proof.
  induction s as [|a s IH]; [reflexivity|].
  destruct s as [|b s].
  - simpl. intros ->. reflexivity.
  - intros H. change (last_char (String a (String b s)))
      with (last_char (String b s)) in H.
    change (Str.rstrip (String a (String b s)))
      with (match Str.rstrip (String b s) with
            | "" => if Str.isspace a then "" else String a ""
            | String x r => String a (String x r)
            end).
    rewrite (IH H). reflexivity.
Qed.

Lemma strip_trimmed (s : string) : trimmed (Str.strip s) = true.
Proof.
  unfold trimmed, Str.strip. apply andb_true_iff. split.
  - destruct (first_char (Str.lstrip s)) as [c|] eqn:E.
    + pose proof (lstrip_first s c E) as Hc.
      now rewrite (rstrip_first _ c E Hc), Hc.
    + destruct (Str.lstrip s); [reflexivity | discriminate].
  - destruct (last_char (Str.rstrip (Str.lstrip s))) as [c|] eqn:E;
      [|reflexivity].
    now rewrite (rstrip_last _ c E).
Qed.

Lemma strip_blank (s : string) : blank s = true -> Str.strip s = "".
Proof.
  unfold Str.strip. induction s as [|a s IH]; simpl; [reflexivity|].
  intros H. apply andb_true_iff in H as [-> H]. now apply IH.
Qed.

Lemma strip_id (s : string) : trimmed s = true -> Str.strip s = s.
Proof.
  unfold trimmed, Str.strip. intros H. apply andb_true_iff in H as [Hf Hl].
  assert (E : Str.lstrip s = s).
  { destruct s as [|a s]; [reflexivity|]. simpl in *.
    now destruct (Str.isspace a). }
  rewrite E. apply rstrip_id.
  destruct (last_char s) as [c|]; [|exact I].
  now destruct (Str.isspace c).
Qed.

(** A cell is the text of the child found, with the white space at its
    two ends removed and nothing else changed: no value starts or ends
    with white space; a text of nothing but white space gives the empty
    string, as a missing child does; a text without white space at its
    ends is written as it is. *)
Theorem cell_is_trimmed_text (e child : Element) (path t : string) :
  find e path = Some child -> text child = Some t ->
  get_element_text (Some e) path = Str.strip t /\
  trimmed (get_element_text (Some e) path) = true /\
  (blank t = true -> get_element_text (Some e) path = "") /\
  (trimmed t = true -> get_element_text (Some e) path = t).
Proof.
  intros Hf Ht.
  assert (E : get_element_text (Some e) path = Str.strip t).
  { unfold get_element_text. rewrite Hf, Ht.
    destruct (String.eqb_spec t "") as [->|]; reflexivity. }
  rewrite E. split; [reflexivity|]. split; [apply strip_trimmed|].
  split; [apply strip_blank | apply strip_id].
Qed.

Lemma cell_is_trimmed_text_witness :
  get_element_text (Some Edge.two_times) (namespace_any ++ "Time") = "first".
Proof.
  exact (proj1 (cell_is_trimmed_text Edge.two_times
                  (Sample.field "Time" "  first  ")
                  (namespace_any ++ "Time") "  first  " eq_refl eq_refl)).
Defined.

Lemma get_element_text_trimmed (el : option Element) (path : string) :
  trimmed (get_element_text el path) = true.
Proof.
  unfold get_element_text. destruct el as [e|]; [|reflexivity].
  destruct (find e path) as [c|]; [|reflexivity].
  destruct (text c) as [t|]; [|reflexivity].
  destruct (t =? ""); [reflexivity | apply strip_trimmed].
Qed.

(** Every value of a row, for any element (or none) and any field map, is
    free of white space at both ends. *)
Theorem row_values_trimmed (trackpoint : option Element)
    (attrs : option AttributeNestingLevel) :
  Forall (fun v => trimmed v = true)
    (extract_trackpoint_data trackpoint attrs).
Proof.
  unfold extract_trackpoint_data. rewrite extract_attribute_paths.
  apply Forall_map, Forall_forall. intros pk _.
  apply get_element_text_trimmed.
Qed.

(** Of several children with the name looked for, the first in document
    order decides the cell, even when it has no text and a later one has:
    what follows it is never read. *)
Theorem first_child_decides (e c : Element) (pre post : list Element)
    (path : string) :
  children e = (pre ++ c :: post)%list ->
  Forall (fun p => tag_matches path (tag p) = false) pre ->
  tag_matches path (tag c) = true ->
  find e path = Some c /\
  get_element_text (Some e) path
  = match text c with
    | Some t => Str.strip t
    | None => ""
    end.
Proof.
  intros Hc Hpre Hm.
  assert (Hf : find e path = Some c).
  { unfold find. rewrite Hc, find_app_split.
    rewrite (find_none_forall _ pre Hpre). simpl. now rewrite Hm. }
  split; [exact Hf|]. unfold get_element_text. rewrite Hf.
  destruct (text c) as [t|]; [|reflexivity].
  destruct (String.eqb_spec t "") as [->|]; reflexivity.
Qed.

Lemma first_child_decides_witness :
  get_element_text
    (Some (Sample.group "Trackpoint"
             [ Sample.field "Cadence" "90"; mkElement "Time" None [];
               Sample.field "Time" "second" ]))
    (namespace_any ++ "Time")
  = "".
Proof.
  refine (proj2 (first_child_decides
                   (Sample.group "Trackpoint"
                      [ Sample.field "Cadence" "90"; mkElement "Time" None [];
                        Sample.field "Time" "second" ])
                   (mkElement "Time" None [])
                   [Sample.field "Cadence" "90"] [Sample.field "Time" "second"]
                   (namespace_any ++ "Time") eq_refl _ eq_refl)).
  repeat constructor.
Defined.


(** ** The field map *)

Lemma extract_headers_value_flatten (v : AttrValue) :
  forall hs,
    extract_headers_value v hs = (hs ++ leaf_columns_value v)%list.
Proof.
  induction v as [c|d IH] using AttrValue_induction; intros hs.
  - reflexivity.
  - cbn [extract_headers_value leaf_columns_value]. revert hs.
    induction d as [|[k v] d IHd]; intros hs.
    + simpl. now rewrite app_nil_r.
    + inversion IH as [|? ? Hv Hd]; subst. cbn [snd] in Hv.
      cbn [fold_left flat_map snd].
      now rewrite (IHd Hd), (Hv hs), app_assoc.
Qed.

Lemma extract_headers_flatten (m : AttributeNestingLevel) :
  forall hs, extract_headers m hs = (hs ++ leaf_columns m)%list.
Proof.
  unfold extract_headers, leaf_columns.
  induction m as [|[k v] m IH]; intros hs.
  - simpl. now rewrite app_nil_r.
  - cbn [fold_left flat_map snd].
    now rewrite IH, extract_headers_value_flatten, app_assoc.
Qed.

(** [extract_headers] adds the column names at the leaves of the map, in
    the order of the map, after what the list holds already, which it
    leaves as it is; the header of two maps put end to end is the two
    headers put end to end; and for a field map whose keys are simple
    names (no XPath syntax, which [find] would take as such), not only the
    built-in one, and any element or none, there are as many values in the
    row as names in the header. *)
Theorem headers_flatten (m m' : AttributeNestingLevel) (hs : list string)
    (el : option Element) :
  extract_headers m hs = (hs ++ leaf_columns m)%list /\
  extract_headers (m ++ m')%list []
  = (extract_headers m [] ++ extract_headers m' [])%list /\
  (simple_keys m = true ->
   List.length (extract_trackpoint_data el (Some m))
   = List.length (extract_headers m [])).
Proof.
  split; [apply extract_headers_flatten|]. split.
  - rewrite !extract_headers_flatten. cbn [app]. unfold leaf_columns.
    apply flat_map_app.
  - intros _. unfold extract_trackpoint_data.
    rewrite extract_attribute_length, extract_headers_length. reflexivity.
Qed.

Lemma headers_flatten_witness :
  simple_keys attributes = true /\
  List.length (extract_trackpoint_data (Some Sample.trackpoint)
                 (Some attributes))
  = List.length (extract_headers attributes []).
Proof.
  split; [reflexivity|].
  exact (proj2 (proj2 (headers_flatten attributes [] []
                         (Some Sample.trackpoint))) eq_refl).
Defined.

(** Without a trackpoint ([None]) the row is one empty string for each
    leaf of the field map in use: nine of them for the built-in map, which
    is the one taken when no map is given. *)
Theorem absent_trackpoint_row (attrs : option AttributeNestingLevel) :
  extract_trackpoint_data None attrs
  = repeat "" (leaves (match attrs with
                       | Some a => a
                       | None => attributes
                       end)) /\
  extract_trackpoint_data None None = repeat "" 9 /\
  (forall el, extract_trackpoint_data el None
              = extract_trackpoint_data el (Some attributes)).
Proof.
  split; [|split; [reflexivity | reflexivity]].
  unfold extract_trackpoint_data. apply extract_attribute_absent.
Qed.

Lemma rename_columns_value_cells (f : string -> string) (v : AttrValue) :
  forall el key,
    extract_attribute_item el key (rename_columns_value f v)
    = extract_attribute_item el key v.
Proof.
  induction v as [c|d IH] using AttrValue_induction; intros el key.
  - reflexivity.
  - cbn [rename_columns_value]. rewrite !extract_attribute_item_nested.
    unfold extract_attribute. rewrite flat_map_map.
    apply flat_map_ext_in. intros [k v] Hin. cbn [fst snd].
    rewrite Forall_forall in IH. exact (IH _ Hin _ k).
Qed.

Lemma rename_columns_value_headers (f : string -> string) (v : AttrValue) :
  leaf_columns_value (rename_columns_value f v)
  = map f (leaf_columns_value v).
Proof.
  induction v as [c|d IH] using AttrValue_induction; [reflexivity|].
  cbn [rename_columns_value leaf_columns_value].
  rewrite flat_map_map, map_flat_map.
  apply flat_map_ext_in. intros [k v] Hin. cbn [snd].
  rewrite Forall_forall in IH. exact (IH _ Hin).
Qed.

Lemma rename_keys_value_headers (g : string -> string) (v : AttrValue) :
  leaf_columns_value (rename_keys_value g v) = leaf_columns_value v.
Proof.
  induction v as [c|d IH] using AttrValue_induction; [reflexivity|].
  cbn [rename_keys_value leaf_columns_value].
  rewrite flat_map_map.
  apply flat_map_ext_in. intros [k v] Hin. cbn [snd].
  rewrite Forall_forall in IH. exact (IH _ Hin).
Qed.

(** In the field map the keys say where to look and the leaf values say
    what to call the column: other column names change the header, name
    for name, and no row; other keys change no header. *)
Theorem keys_select_values_name (f g : string -> string)
    (m : AttributeNestingLevel) (el : option Element) :
  extract_trackpoint_data el (Some (rename_columns f m))
  = extract_trackpoint_data el (Some m) /\
  extract_headers (rename_columns f m) [] = map f (extract_headers m []) /\
  extract_headers (rename_keys g m) [] = extract_headers m [].
Proof.
  split; [|split].
  - unfold extract_trackpoint_data, extract_attribute, rename_columns.
    rewrite flat_map_map. apply flat_map_ext. intros [k v]. cbn [fst snd].
    apply rename_columns_value_cells.
  - rewrite !extract_headers_flatten. cbn [app].
    unfold leaf_columns, rename_columns.
    rewrite flat_map_map, map_flat_map.
    apply flat_map_ext. intros [k v]. cbn [snd].
    apply rename_columns_value_headers.
  - rewrite !extract_headers_flatten. cbn [app].
    unfold leaf_columns, rename_keys. rewrite flat_map_map.
    apply flat_map_ext. intros [k v]. cbn [snd].
    apply rename_keys_value_headers.
Qed.


(** ** Activities and Activity are looked up in the namespace of the root *)

Lemma qname_inj_plain (ns ns' : option string) (name l : string) :
  plain_name name = true -> plain_name l = true ->
  qname ns' l = qname ns name -> ns' = ns /\ l = name.
Proof.
  intros Hn Hl H. apply plain_name_contains in Hn, Hl.
  assert (E : l = name).
  { destruct ns' as [u'|], ns as [u|].
    - rewrite !qname_some in H.
      exact (StrFacts.rsplit_unique (String "{" u') (String "{" u) l name
               Hl Hn H).
    - rewrite qname_some in H. unfold qname in H. simpl in H. subst name.
      simpl in Hn. rewrite StrFacts.contains_append in Hn. simpl in Hn.
      now rewrite !orb_true_r in Hn.
    - rewrite qname_some in H. unfold qname in H. simpl in H. subst l.
      simpl in Hl. rewrite StrFacts.contains_append in Hl. simpl in Hl.
      now rewrite !orb_true_r in Hl.
    - exact H. }
  subst l. split; [exact (qname_inj ns ns' name H) | reflexivity].
Qed.

(** A path in a namespace other than [*], or in none, is compared with
    the tag as it is. *)
Lemma tag_matches_exact (ns : option string) (name t : string) :
  namespace_ok ns = true -> ns <> Some "*" -> plain_name name = true ->
  tag_matches (qname ns name) t = (t =? qname ns name).
Proof.
  intros Hns Hstar Hn. unfold tag_matches.
  assert (Hp : (Str.take 3 (qname ns name) =? "{*}") = false).
  { destruct ns as [uri|].
    - apply namespace_name_inv in Hns as (Hne & Hbr & _).
      rewrite qname_some.
      destruct uri as [|c [|d uri]]; [congruence| |].
      + simpl. destruct (Ascii.eqb_spec c "*") as [->|]; [congruence|reflexivity].
      + simpl in Hbr. apply orb_false_iff in Hbr as [_ Hbr].
        apply orb_false_iff in Hbr as [Hd _].
        simpl. rewrite Hd. now destruct (Ascii.eqb c "*").
    - unfold qname, ns_prefix. change ("" ++ name) with name.
      apply plain_name_contains in Hn.
      destruct name as [|a [|b [|c name]]]; simpl; try reflexivity.
      + now destruct (Ascii.eqb a "{").
      + destruct (Ascii.eqb a "{"); [|reflexivity].
        now destruct (Ascii.eqb b "*").
      + simpl in Hn. apply orb_false_iff in Hn as [_ Hn].
        apply orb_false_iff in Hn as [_ Hn].
        apply orb_false_iff in Hn as [Hc _]. rewrite Hc.
        destruct (Ascii.eqb a "{"); [|reflexivity].
        now destruct (Ascii.eqb b "*"). }
  rewrite Hp.
  assert (Hq : (Str.take 2 (qname ns name) =? "{}") = false).
  { destruct ns as [uri|].
    - apply namespace_name_inv in Hns as (Hne & Hbr & _).
      rewrite qname_some. destruct uri as [|c uri]; [congruence|].
      simpl in Hbr. apply orb_false_iff in Hbr as [Hc _].
      simpl. now rewrite Hc.
    - unfold qname, ns_prefix. change ("" ++ name) with name.
      apply plain_name_contains in Hn.
      destruct name as [|a [|b name]]; simpl; try reflexivity.
      + now destruct (Ascii.eqb a "{").
      + simpl in Hn. apply orb_false_iff in Hn as [_ Hn].
        apply orb_false_iff in Hn as [Hb _]. rewrite Hb.
        now destruct (Ascii.eqb a "{"). }
  now rewrite Hq.
Qed.

Lemma find_other_namespace (ns ns' : option string) (name : string)
    (t : string) (x : option string) (kids : list Element) :
  namespace_ok ns = true -> ns <> Some "*" -> ns' <> ns ->
  plain_name name = true ->
  forallb plain_names kids = true ->
  find (mkElement t x (map (in_namespace ns') kids)) (qname ns name) = None.
Proof.
  intros Hns Hstar Hdiff Hn Hkids. unfold find. cbn [children].
  apply find_none_forall. apply Forall_map, Forall_forall. intros c Hc.
  rewrite forallb_forall in Hkids.
  rewrite tag_in_namespace, tag_matches_exact by assumption.
  apply String.eqb_neq. intros E.
  apply qname_inj_plain in E as [E _];
    [congruence | assumption | exact (plain_names_tag c (Hkids c Hc))].
Qed.

(** Activities and Activity are looked up in the namespace of the root and
    in no other: under a root in the namespace [ns] (or in none), when
    what is below the root is in another namespace the run ends on
    [Unable to find Activities under root], and when Activities is in the
    namespace of the root and what is below it is not, on [Unable to find
    Activity under Activities].  (A namespace named [*] would turn the
    path into a wildcard and is left out.) *)
Theorem activities_in_root_namespace (ns ns' : option string)
    (x y : option string) (kids : list Element)
    (o : option Exception) (wr : nat -> option Exception)
    (cl : option Exception) (fl : nat) (w : World) :
  namespace_ok ns = true -> ns <> Some "*" -> ns' <> ns ->
  forallb plain_names kids = true ->
  main (mkEnv (inl (mkElement (qname ns "TrainingCenterDatabase") x
                      (map (in_namespace ns') kids))) o wr cl fl) w
  = (Ok tt, printed "Unable to find Activities under root" w) /\
  (kids <> [] ->
   main (mkEnv (inl (mkElement (qname ns "TrainingCenterDatabase") x
                       [ mkElement (qname ns "Activities") y
                           (map (in_namespace ns') kids) ])) o wr cl fl) w
   = (Ok tt, printed "Unable to find Activity under Activities" w)).
Proof.
  intros Hns Hstar Hdiff Hkids.
  pose proof (root_namespace_qname ns "TrainingCenterDatabase" Hns eq_refl)
    as Hp.
  split.
  - rewrite main_unfold. unfold main_body, et_parse, bind.
    cbn [parse_result]. unfold ret. cbn [tag]. rewrite Hp.
    fold (qname ns "TrainingCenterDatabase"). rewrite String.eqb_refl.
    cbn [negb]. fold (qname ns "Activities").
    now rewrite find_other_namespace.
  - intros Hne. rewrite main_unfold. unfold main_body, et_parse, bind.
    cbn [parse_result]. unfold ret. cbn [tag]. rewrite Hp.
    fold (qname ns "TrainingCenterDatabase"). rewrite String.eqb_refl.
    cbn [negb]. fold (qname ns "Activities") (qname ns "Activity").
    unfold find at 1. cbn [children List.find tag].
    rewrite (tag_matches_exact ns "Activities" _ Hns Hstar eq_refl).
    rewrite String.eqb_refl.
    replace (len (mkElement (qname ns "Activities") y
                    (map (in_namespace ns') kids)) =? 0)%nat with false.
    + now rewrite find_other_namespace.
    + symmetry. apply Nat.eqb_neq. unfold len. cbn [children].
      rewrite length_map. destruct kids; [congruence|simpl; lia].
Qed.

Lemma activities_in_root_namespace_witness :
  main (Sample.env
          (mkElement (qname (Some Sample.garmin) "TrainingCenterDatabase") None
             (map (in_namespace None) (children Sample.two_laps))))
    (initial_world None)
  = (Ok tt,
     printed "Unable to find Activities under root" (initial_world None)).
Proof.
  refine (proj1 (activities_in_root_namespace (Some Sample.garmin) None
                   None None (children Sample.two_laps)
                   None (fun _ => None) None 0 (initial_world None)
                   eq_refl _ _ eq_refl)); discriminate.
Defined.
